(** * BenchDecorator: the multithreaded benchmark decorator and its sweep driver

    Shallow embedding of [assignment-2/BenchDecorator/BenchDecorator.py].

    - Python integers are [Z]; [range(n)] runs [Z.to_nat n] times, so a zero
      or negative bound gives an empty loop, as in Python.
    - Readings of [time.perf_counter()] and the values handled by the
      [statistics] module are modelled by their exact rational value ([Q]).
      CPython's [statistics.mean] and [statistics.variance] compute over
      exact fractions and only convert the final quotient; that last
      conversion, like the rounding of [end_time - start_time], is monotone
      and keeps 0, so it is left out.
    - The program runs in a small state-and-exception monad over a [World]:
      the state the workload acts on, the number of clock readings taken,
      the table of thread objects, a scheduling oracle and a trace of
      events.
    - Threads are interleaved at the granularity of one workload call.  Every
      primitive of the main thread ([perf_counter], [Thread], [start],
      [join]) first lets the running workers perform the calls that the
      oracle schedules at that point; [join] then waits for its thread to
      finish.  Quantifying over the oracle covers every interleaving.
    - As in [threading], an exception that escapes a thread's target is
      handed to the thread's except hook and ends that thread only; [join]
      returns normally afterwards. *)

From Stdlib Require Import ZArith QArith String List Bool Arith Lia Lqa.
From Stdlib Require Import DecimalString.
Import ListNotations.

Local Open Scope Z_scope.
#[local] Set Warnings "-register-all".

(** ** Python values *)

Inductive pyval : Type :=
| VNone
| VInt (z : Z)
| VFloat (q : Q)
| VStr (s : string)
| VTuple (items : list pyval)
| VDict (d : list (string * pyval)).

Definition pyargs := list pyval.
Definition pykwargs := list (string * pyval).
(** A dict literal keeps its insertion order. *)
Definition pydict := list (string * pyval).

Fixpoint dict_get (k : string) (d : pydict) : option pyval :=
  match d with
  | [] => None
  | (k', v) :: d' => if String.eqb k k' then Some v else dict_get k d'
  end.

Definition dict_keys (d : pydict) : list string := map fst d.

Inductive exn : Type :=
| StatisticsError (msg : string)
| RuntimeError (msg : string)
| WorkloadError (msg : string).

Inductive result (A : Type) : Type :=
| Ok (a : A)
| Raise (e : exn).
Arguments Ok {A} a.
Arguments Raise {A} e.

(** ** The [statistics] module *)

Definition fsum (xs : list Q) : Q := fold_right Qplus 0%Q xs.

Definition count_of (xs : list Q) : Q := inject_Z (Z.of_nat (length xs)).

(** [statistics.mean(data)] *)
Definition statistics_mean (data : list Q) : result Q :=
  if (length data <? 1)%nat
  then Raise (StatisticsError "mean requires at least one data point")
  else Ok (fsum data / count_of data)%Q.

(** The exact sum of squared deviations, [(n * sxx - sx * sx) / n]. *)
Definition sum_sq_dev (data : list Q) : Q :=
  let n := count_of data in
  let sx := fsum data in
  let sxx := fsum (map (fun x => x * x)%Q data) in
  ((n * sxx - sx * sx) / n)%Q.

(** [statistics.variance(data)] *)
Definition statistics_variance (data : list Q) : result Q :=
  if (length data <? 2)%nat
  then Raise (StatisticsError "variance requires at least two data points")
  else Ok (sum_sq_dev data / (count_of data - 1))%Q.

(** ** Threads, events and the world *)

(** What a thread still has to run: calls of the workload. *)
Inductive action : Type :=
| Call (args : pyargs) (kwargs : pykwargs).

Record thread : Type := mkThread {
  th_started : bool;
  th_code : list action
}.

Inductive event : Type :=
| EvClock (t : Q)                                       (* time.perf_counter() *)
| EvCreate (tid : nat)                                  (* threading.Thread(target=...) *)
| EvStart (tid : nat)                                   (* thread.start() *)
| EvJoin (tid : nat)                                    (* thread.join() returned *)
| EvCall (tid : nat) (args : pyargs) (kwargs : pykwargs) (* func( *args, **kwargs) *)
| EvRaise (tid : nat) (e : exn)                         (* exception ended the thread *)
| EvPrint (v : pyval)                                   (* print(v) *)
| EvWrite (filename content : string).                  (* file.write(content) *)

Definition is_call (e : event) : bool :=
  match e with EvCall _ _ _ => true | _ => false end.

Definition is_worker_event (e : event) : bool :=
  match e with EvCall _ _ _ | EvRaise _ _ => true | _ => false end.

(** Number of workload invocations recorded in a trace. *)
Definition calls (l : list event) : nat := length (filter is_call l).

Definition is_call_by (tid : nat) (e : event) : bool :=
  match e with EvCall t _ _ => Nat.eqb t tid | _ => false end.

(** Number of workload invocations made by thread [tid]. *)
Definition calls_by (tid : nat) (l : list event) : nat :=
  length (filter (is_call_by tid) l).

(** The events of the main thread. *)
Definition main_events (l : list event) : list event :=
  filter (fun e => negb (is_worker_event e)) l.

Fixpoint list_set {A : Type} (l : list A) (i : nat) (x : A) : list A :=
  match l, i with
  | [], _ => []
  | _ :: l', O => x :: l'
  | y :: l', S i' => y :: list_set l' i' x
  end.

(** ** Sample workloads and clocks

    A counting stub (its state is the number of calls made), a workload
    that raises on every call, and two clocks. *)

Definition counting_stub (args : pyargs) (kwargs : pykwargs) (s : nat)
  : option exn * nat := (None, S s).

Definition failing_stub (args : pyargs) (kwargs : pykwargs) (s : nat)
  : option exn * nat := (Some (WorkloadError "boom"), S s).

(** The k-th reading is [k * k] seconds. *)
Definition square_clock (k : nat) : Q := inject_Z (Z.of_nat (k * k)).

(** A clock that runs backwards. *)
Definition backward_clock (k : nat) : Q := (- inject_Z (Z.of_nat k))%Q.

(** ** The sample workload [grezzo]

    [def grezzo(n): for i in range(2 ** n): pass].  The state is the number
    of iterations of the loop made so far.  Integers are unbounded: the
    memory that [2 ** n] needs is not modelled. *)

(** The value bound to the parameter [n] by a call [grezzo( *args, **kwargs)],
    if the call is well formed. *)
Definition grezzo_param (args : pyargs) (kwargs : pykwargs) : option pyval :=
  match args, kwargs with
  | [v], [] => Some v
  | [], [(name, v)] => if String.eqb name "n" then Some v else None
  | _, _ => None
  end.

Definition grezzo (args : pyargs) (kwargs : pykwargs) (s : Z) : option exn * Z :=
  match grezzo_param args kwargs with
  | None => (Some (WorkloadError "TypeError"), s)
  | Some (VInt n) =>
      (* for a negative n, 2 ** n is a float, which range() refuses *)
      if n <? 0 then (Some (WorkloadError "TypeError"), s)
      else (None, s + 2 ^ n)
  | Some (VFloat q) =>
      (* 2 ** q is a float, or overflows *)
      if Qle_bool 1024 q then (Some (WorkloadError "OverflowError"), s)
      else (Some (WorkloadError "TypeError"), s)
  | Some _ => (Some (WorkloadError "TypeError"), s)
  end.

(** ** More sample workloads and clocks *)

(** A workload that raises on every other call. *)
Definition flaky_stub (args : pyargs) (kwargs : pykwargs) (s : nat)
  : option exn * nat :=
  (if Nat.even s then None else Some (WorkloadError "odd"), S s).

(** The k-th reading is [k] seconds: every trial takes one second. *)
Definition steady_clock (k : nat) : Q := inject_Z (Z.of_nat k).

Section Engine.

(** The state the workload acts on, the workload, its [__name__], and the
    successive readings of the monotonic clock. *)
Variable St : Type.
Variable func : pyargs -> pykwargs -> St -> option exn * St.
Variable func_name : string.
Variable clock : nat -> Q.

Record World : Type := mkWorld {
  st : St;                    (* state seen by the workload *)
  ticks : nat;                (* clock readings taken so far *)
  sched : list (list nat);    (* oracle: the threads that run at each yield *)
  pool : list thread;         (* thread objects, by creation order *)
  log : list event            (* trace *)
}.

Definition M (A : Type) : Type := World -> result A * World.

Definition ret {A : Type} (a : A) : M A := fun w => (Ok a, w).

Definition bind {A B : Type} (m : M A) (k : A -> M B) : M B :=
  fun w => match m w with
           | (Ok a, w') => k a w'
           | (Raise e, w') => (Raise e, w')
           end.

Definition lift {A : Type} (r : result A) : M A := fun w => (r, w).

Notation "x <- m ;; k" := (bind m (fun x => k))
  (at level 100, m at next level, right associativity).
Notation "m ;;; k" := (bind m (fun _ => k))
  (at level 100, right associativity).

(** [for x in xs: acc = body x acc] *)
Fixpoint for_each {A S : Type} (xs : list A) (body : A -> S -> M S) (acc : S) : M S :=
  match xs with
  | [] => ret acc
  | x :: xs' => acc' <- body x acc ;; for_each xs' body acc'
  end.

(** [for _ in range(n): acc = body acc] *)
Definition for_range {S : Type} (n : Z) (body : S -> M S) (acc : S) : M S :=
  for_each (seq 0 (Z.to_nat n)) (fun _ => body) acc.

Definition emit (e : event) (w : World) : World :=
  mkWorld (st w) (ticks w) (sched w) (pool w) (log w ++ [e]).

(** One step of thread [tid]: its next workload call, when it is started
    and has one left.  A normal return value is discarded; an exception is
    reported and the rest of the thread's code is dropped. *)
Definition step (tid : nat) (w : World) : World :=
  match nth_error (pool w) tid with
  | Some (mkThread true (Call args kwargs :: rest)) =>
      match func args kwargs (st w) with
      | (None, s') =>
          mkWorld s' (ticks w) (sched w)
                  (list_set (pool w) tid (mkThread true rest))
                  (log w ++ [EvCall tid args kwargs])
      | (Some e, s') =>
          mkWorld s' (ticks w) (sched w)
                  (list_set (pool w) tid (mkThread true []))
                  (log w ++ [EvCall tid args kwargs; EvRaise tid e])
      end
  | _ => w
  end.

Definition steps (tids : list nat) (w : World) : World :=
  fold_left (fun w' tid => step tid w') tids w.

(** The workers run as the oracle says before the main thread goes on. *)
Definition yield (w : World) : World :=
  match sched w with
  | [] => w
  | c :: rest => steps c (mkWorld (st w) (ticks w) rest (pool w) (log w))
  end.

Definition code_left (tid : nat) (w : World) : nat :=
  match nth_error (pool w) tid with
  | Some t => length (th_code t)
  | None => O
  end.

(** Thread [tid] runs until its code is exhausted. *)
Definition run_to_end (tid : nat) (w : World) : World :=
  Nat.iter (code_left tid w) (step tid) w.

(** [time.perf_counter()] *)
Definition perf_counter : M Q := fun w =>
  let w1 := yield w in
  let t := clock (ticks w1) in
  (Ok t, mkWorld (st w1) (S (ticks w1)) (sched w1) (pool w1) (log w1 ++ [EvClock t])).

(** [threading.Thread(target=code)]: the new thread object, not started. *)
Definition Thread (code : list action) : M nat := fun w =>
  let w1 := yield w in
  let tid := length (pool w1) in
  (Ok tid, mkWorld (st w1) (ticks w1) (sched w1)
                   (pool w1 ++ [mkThread false code]) (log w1 ++ [EvCreate tid])).

(** [thread.start()] *)
Definition Thread_start (tid : nat) : M unit := fun w =>
  let w1 := yield w in
  match nth_error (pool w1) tid with
  | Some (mkThread false code) =>
      (Ok tt, mkWorld (st w1) (ticks w1) (sched w1)
                      (list_set (pool w1) tid (mkThread true code))
                      (log w1 ++ [EvStart tid]))
  | _ => (Raise (RuntimeError "threads can only be started once"), w1)
  end.

(** [thread.join()] *)
Definition Thread_join (tid : nat) : M unit := fun w =>
  let w1 := yield w in
  match nth_error (pool w1) tid with
  | Some (mkThread true _) => (Ok tt, emit (EvJoin tid) (run_to_end tid w1))
  | _ => (Raise (RuntimeError "cannot join thread before it is started"), w1)
  end.

(** [print(v)] *)
Definition print (v : pyval) : M unit := fun w => (Ok tt, emit (EvPrint v) w).

(** [with open(filename, 'w') as file: file.write(content)] *)
Definition write_file (filename content : string) : M unit :=
  fun w => (Ok tt, emit (EvWrite filename content) w).

(** ** The decorator *)

Section Bench.

Variables n_threads seq_iter iter : Z.

(** [def worker(): for _ in range(seq_iter): func( *args, **kwargs)] *)
Definition worker (args : pyargs) (kwargs : pykwargs) : list action :=
  map (fun _ => Call args kwargs) (seq 0 (Z.to_nat seq_iter)).

(** The body of the loop [for _ in range(iter)], up to the elapsed time
    that is appended to [results]. *)
Definition trial (args : pyargs) (kwargs : pykwargs) : M Q :=
  let threads := @nil nat in
  start_time <- perf_counter ;;
  threads <- for_range n_threads
               (fun threads =>
                  thread <- Thread (worker args kwargs) ;;
                  ret (threads ++ [thread]))
               threads ;;
  for_each threads (fun thread _ => Thread_start thread) tt ;;;
  for_each threads (fun thread _ => Thread_join thread) tt ;;;
  end_time <- perf_counter ;;
  let execution_time := (end_time - start_time)%Q in
  ret execution_time.

Definition result_dict (args : pyargs) (mean : Q) (variance : pyval) : pydict :=
  [ ("fun"%string, VStr func_name);
    ("args"%string, VTuple args);
    ("n_threads"%string, VInt n_threads);
    ("seq_iter"%string, VInt seq_iter);
    ("iter"%string, VInt iter);
    ("mean"%string, VFloat mean);
    ("variance"%string, variance) ].

Definition wrapper (args : pyargs) (kwargs : pykwargs) : M pydict :=
  results <- for_range iter
               (fun results =>
                  execution_time <- trial args kwargs ;;
                  ret (results ++ [execution_time]))
               [] ;;
  average_execution_time <- lift (statistics_mean results) ;;
  variance <- (if iter =? 1
               then ret (VInt 0)
               else v <- lift (statistics_variance results) ;; ret (VFloat v)) ;;
  ret (result_dict args average_execution_time variance).

End Bench.

(** [bench(n_threads, seq_iter, iter)(func)] *)
Definition bench (n_threads seq_iter iter : Z) : pyargs -> pykwargs -> M pydict :=
  wrapper n_threads seq_iter iter.

(** ** The sweep driver *)

(** [str] of an [int]. *)
Definition str_int (n : Z) : string := NilZero.string_of_int (Z.to_int n).

(** Formatting done by the Python runtime: [str] of the argument tuple and
    [json.dumps(result, indent=4)]. *)
Variable str_args : pyargs -> string.
Variable json_dumps : pydict -> string.

Definition test (iter : Z) (args : pyargs) : M unit :=
  for_each [1; 2; 4; 8]
    (fun n_threads _ =>
       let seq_iter := 16 / n_threads in
       result <- bench n_threads seq_iter iter args [] ;;
       let filename :=
         ("results/" ++ func_name ++ "_" ++ str_args args ++ "_"
            ++ str_int n_threads ++ "_" ++ str_int seq_iter ++ ".txt")%string in
       print (VDict result) ;;;
       print (VStr filename) ;;;
       write_file filename (json_dumps result))
    tt.

(** ** Observations and specification vocabulary *)

Definition init_world (s : St) (oracle : list (list nat)) : World :=
  mkWorld s 0 oracle [] [].

Definition flags (w : World) : list bool := map th_started (pool w).

(** Workload calls that the threads of the pool still have to make. *)
Definition pending (w : World) : nat :=
  list_sum (map (fun t => length (th_code t)) (pool w)).

(** No thread has anything left to run. *)
Definition quiescent (w : World) : Prop := pending w = O.

(** The workload returns normally on every call. *)
Definition never_raises : Prop := forall a k s, fst (func a k s) = None.

(** Total correctness: [m] returns normally from [w] and [Q] holds of the
    value and the final world. *)
Definition wp {A : Type} (m : M A) (Q : A -> World -> Prop) (w : World) : Prop :=
  exists a w', m w = (Ok a, w') /\ Q a w'.

(** [R] relates every world to the one [m] leaves, whatever [m] returns. *)
Definition sat {A : Type} (m : M A) (R : World -> World -> Prop) : Prop :=
  forall w, R w (snd (m w)).

(** A preorder on worlds that every step of a worker and every change of
    the oracle respects. *)
Record worker_closed (R : World -> World -> Prop) : Prop := mkClosed {
  wc_refl : forall w, R w w;
  wc_trans : forall w1 w2 w3, R w1 w2 -> R w2 w3 -> R w1 w3;
  wc_step : forall tid w, R w (step tid w);
  wc_sched : forall w c, R w (mkWorld (st w) (ticks w) c (pool w) (log w))
}.

(** What steps of the workers leave alone. *)
Record frame (w w' : World) : Prop := mkFrame {
  fr_ticks : ticks w' = ticks w;
  fr_flags : flags w' = flags w;
  fr_main : main_events (log w') = main_events (log w);
  fr_code : forall i, (code_left i w' <= code_left i w)%nat
}.

(** Bookkeeping of workload calls when every thread is created with [s]
    calls to make. *)
Record account (s : nat) (w w' : World) : Prop := mkAccount {
  ac_mono : (calls (log w) <= calls (log w'))%nat;
  ac_state : calls (log w') = calls (log w) -> st w' = st w;
  ac_bound : (calls (log w') + pending w' + s * length (pool w)
              <= calls (log w) + pending w + s * length (pool w'))%nat;
  ac_exact : never_raises ->
             (calls (log w') + pending w' + s * length (pool w)
              = calls (log w) + pending w + s * length (pool w'))%nat
}.

Definition uniform (a : pyargs) (k : pykwargs) (w : World) : Prop :=
  Forall (fun t => Forall (eq (Call a k)) (th_code t)) (pool w).

Definition call_has (a : pyargs) (k : pykwargs) (e : event) : Prop :=
  match e with
  | EvCall _ a' k' => a' = a /\ k' = k
  | _ => True
  end.

(** Every call made between [w] and [w'] was given [a] and [k]. *)
Definition forwards (a : pyargs) (k : pykwargs) (w w' : World) : Prop :=
  uniform a k w ->
  uniform a k w' /\
  exists new, log w' = log w ++ new /\ Forall (call_has a k) new.

(** The main thread's events in one trial: threads [first .. first + n - 1],
    clock readings [t0] and [t1]. *)
Definition trial_trace (n first : nat) (t0 t1 : Q) : list event :=
  [EvClock t0] ++ map EvCreate (seq first n) ++ map EvStart (seq first n)
    ++ map EvJoin (seq first n) ++ [EvClock t1].

(** The elapsed times of [m] trials when [T] readings were taken before. *)
Fixpoint timings (T m : nat) : list Q :=
  match m with
  | O => []
  | S m' => (clock (S T) - clock T)%Q :: timings (S (S T)) m'
  end.

(** What one trial does: [t] is the elapsed time it returns, [w] and [w']
    are the worlds before and after it, [n] is the number of its threads. *)
Record trial_post (n : nat) (w : World) (t : Q) (w' : World) : Prop := mkTrialPost {
  tp_time : t = (clock (S (ticks w)) - clock (ticks w))%Q;
  tp_ticks : ticks w' = S (S (ticks w));
  tp_flags : flags w' = flags w ++ repeat true n;
  tp_main : main_events (log w')
            = main_events (log w)
                ++ trial_trace n (length (pool w)) (clock (ticks w)) (clock (S (ticks w)));
  tp_old : forall i, (i < length (pool w))%nat -> (code_left i w' <= code_left i w)%nat;
  tp_new : forall i, (length (pool w) <= i)%nat -> code_left i w' = O
}.

(** Lines 46 to 63 of the source as a function of the elapsed times. *)
Definition summarize (n_threads seq_iter iter : Z) (args : pyargs) (results : list Q)
  : result pydict :=
  match statistics_mean results with
  | Raise e => Raise e
  | Ok average_execution_time =>
      if iter =? 1
      then Ok (result_dict n_threads seq_iter iter args average_execution_time (VInt 0))
      else match statistics_variance results with
           | Raise e => Raise e
           | Ok v => Ok (result_dict n_threads seq_iter iter args average_execution_time (VFloat v))
           end
  end.

(** The configuration echoed in a printed result. *)
Definition config_of (e : event) : option (Z * Z * Z) :=
  match e with
  | EvPrint (VDict d) =>
      match dict_get "n_threads" d, dict_get "seq_iter" d, dict_get "iter" d with
      | Some (VInt n), Some (VInt s), Some (VInt i) => Some (n, s, i)
      | _, _, _ => None
      end
  | _ => None
  end.

(** The configurations of the results printed so far, oldest first. *)
Fixpoint configs_of (l : list event) : list (Z * Z * Z) :=
  match l with
  | [] => []
  | e :: l' =>
      match config_of e with
      | Some c => c :: configs_of l'
      | None => configs_of l'
      end
  end.

(** The order of a trial in which all workers are created before the start
    time is taken. *)
Definition create_first_trace (n first : nat) (t0 t1 : Q) : list event :=
  map EvCreate (seq first n) ++ [EvClock t0] ++ map EvStart (seq first n)
    ++ map EvJoin (seq first n) ++ [EvClock t1].

(** ** Vocabulary of the further properties *)

(** On the arguments [a] and [k] the workload returns normally, or raises,
    whatever the state. *)
Definition returns_on (a : pyargs) (k : pykwargs) : Prop :=
  forall x, fst (func a k x) = None.

Definition raises_on (a : pyargs) (k : pykwargs) : Prop :=
  forall x, fst (func a k x) <> None.

(** What one call [func( *a, **k)] does to the state. *)
Definition state_after (a : pyargs) (k : pykwargs) (x : St) : St :=
  snd (func a k x).

(** Threads of the pool that still have a call to make. *)
Definition live (w : World) : nat :=
  list_sum (map (fun t => Nat.min 1 (length (th_code t))) (pool w)).

(** Every thread that has code makes a call, when every thread is created
    with [s] calls to make. *)
Definition activity (s : nat) (w w' : World) : Prop :=
  (calls (log w) + live w + Nat.min 1 s * length (pool w')
   <= calls (log w') + live w' + Nat.min 1 s * length (pool w))%nat.

(** Bookkeeping of a run whose pending calls are all [func( *a, **k)], when
    every thread is created with [s] calls to make. *)
Record conducted (a : pyargs) (k : pykwargs) (s : nat) (w w' : World) : Prop :=
  mkConducted {
  cd_uniform : uniform a k w';
  cd_mono : (calls (log w) <= calls (log w'))%nat;
  cd_state : st w' = Nat.iter (calls (log w') - calls (log w)) (state_after a k) (st w);
  cd_returns : returns_on a k ->
               (calls (log w') + pending w' + s * length (pool w)
                = calls (log w) + pending w + s * length (pool w'))%nat;
  cd_raises : raises_on a k ->
              (calls (log w') + live w' + Nat.min 1 s * length (pool w)
               = calls (log w) + live w + Nat.min 1 s * length (pool w'))%nat
}.

Definition conduct (a : pyargs) (k : pykwargs) (s : nat) (w w' : World) : Prop :=
  uniform a k w -> conducted a k s w w'.

(** The same bookkeeping thread by thread. *)
Record counted (a : pyargs) (k : pykwargs) (s : nat) (w w' : World) : Prop :=
  mkCounted {
  ct_uniform : uniform a k w';
  ct_len : (length (pool w) <= length (pool w'))%nat;
  ct_out : forall tid, (length (pool w') <= tid)%nat ->
           calls_by tid (log w') = calls_by tid (log w);
  ct_ret_old : returns_on a k -> forall tid, (tid < length (pool w))%nat ->
               (calls_by tid (log w') + code_left tid w'
                = calls_by tid (log w) + code_left tid w)%nat;
  ct_ret_new : returns_on a k -> forall tid,
               (length (pool w) <= tid < length (pool w'))%nat ->
               (calls_by tid (log w') + code_left tid w'
                = calls_by tid (log w) + s)%nat;
  ct_rai_old : raises_on a k -> forall tid, (tid < length (pool w))%nat ->
               (calls_by tid (log w') + Nat.min 1 (code_left tid w')
                = calls_by tid (log w) + Nat.min 1 (code_left tid w))%nat;
  ct_rai_new : raises_on a k -> forall tid,
               (length (pool w) <= tid < length (pool w'))%nat ->
               (calls_by tid (log w') + Nat.min 1 (code_left tid w')
                = calls_by tid (log w) + Nat.min 1 s)%nat
}.

Definition count (a : pyargs) (k : pykwargs) (s : nat) (w w' : World) : Prop :=
  uniform a k w -> counted a k s w w'.

(** The main thread's events in [m] trials of [n] threads each. *)
Fixpoint run_trace (n first T m : nat) : list event :=
  match m with
  | O => []
  | S m' => trial_trace n first (clock T) (clock (S T))
              ++ run_trace n (first + n) (S (S T)) m'
  end.

Definition is_sink (e : event) : bool :=
  match e with EvPrint _ | EvWrite _ _ => true | _ => false end.

(** What was printed and written, oldest first. *)
Definition sink_events (l : list event) : list event := filter is_sink l.

(** The file name that [test] builds for a configuration. *)
Definition result_filename (args : pyargs) (n_threads seq_iter : Z) : string :=
  ("results/" ++ func_name ++ "_" ++ str_args args ++ "_"
     ++ str_int n_threads ++ "_" ++ str_int seq_iter ++ ".txt")%string.

(** What [test] hands to the sink for one result. *)
Definition sink_trace (args : pyargs) (n_threads seq_iter : Z) (result : pydict)
  : list event :=
  [ EvPrint (VDict result);
    EvPrint (VStr (result_filename args n_threads seq_iter));
    EvWrite (result_filename args n_threads seq_iter) (json_dumps result) ].

(** ** Lists updated by index *)

Lemma length_list_set {A : Type} (l : list A) (i : nat) (x : A) :
  length (list_set l i x) = length l.
Proof.
  revert i; induction l as [|y l IH]; intros [|i]; simpl; auto.
Qed.

Lemma nth_error_list_set_eq {A : Type} (l : list A) (i : nat) (x y : A) :
  nth_error l i = Some y -> nth_error (list_set l i x) i = Some x.
Proof.
  revert i; induction l as [|z l IH]; intros [|i]; simpl; try discriminate; auto.
Qed.

Lemma nth_error_list_set_neq {A : Type} (l : list A) (i j : nat) (x : A) :
  i <> j -> nth_error (list_set l i x) j = nth_error l j.
Proof.
  revert i j; induction l as [|z l IH]; intros [|i] [|j] Hij; simpl; auto.
  congruence.
Qed.

Lemma map_list_set {A B : Type} (f : A -> B) (l : list A) (i : nat) (x : A) :
  map f (list_set l i x) = list_set (map f l) i (f x).
Proof.
  revert i; induction l as [|z l IH]; intros [|i]; simpl; auto.
  now rewrite IH.
Qed.

Lemma list_set_same {A : Type} (l : list A) (i : nat) (x : A) :
  nth_error l i = Some x -> list_set l i x = l.
Proof.
  revert i; induction l as [|z l IH]; intros [|i]; simpl; try discriminate; auto.
  - now intros [= ->].
  - intros H. now rewrite IH.
Qed.

Lemma list_sum_list_set (l : list nat) (i : nat) (x y : nat) :
  nth_error l i = Some y ->
  (list_sum (list_set l i x) + y = list_sum l + x)%nat.
Proof.
  revert i; induction l as [|z l IH]; intros [|i]; simpl; try discriminate.
  - intros [= ->]. lia.
  - intros H. specialize (IH _ H). lia.
Qed.

Lemma list_set_app_mid {A : Type} (l1 l2 : list A) (x y : A) :
  list_set (l1 ++ x :: l2) (length l1) y = l1 ++ y :: l2.
Proof.
  induction l1 as [|z l1 IH]; simpl; auto. now rewrite IH.
Qed.

Lemma list_sum_zero (l : list nat) :
  list_sum l = O <-> Forall (fun n => n = O) l.
Proof.
  induction l as [|x l IH]; simpl.
  - split; auto.
  - split.
    + intros H. constructor; [lia | apply IH; lia].
    + intros H. inversion H; subst. simpl. now apply IH.
Qed.

(** ** Traces *)

Lemma calls_app (l1 l2 : list event) :
  calls (l1 ++ l2) = (calls l1 + calls l2)%nat.
Proof.
  unfold calls. now rewrite filter_app, length_app.
Qed.

Lemma main_events_app (l1 l2 : list event) :
  main_events (l1 ++ l2) = main_events l1 ++ main_events l2.
Proof.
  unfold main_events. apply filter_app.
Qed.

(** ** The observations of a world *)

Lemma pending_code_left (w : World) :
  pending w = O <-> forall i, code_left i w = O.
Proof.
  unfold pending, code_left. rewrite list_sum_zero, Forall_map, Forall_forall.
  split.
  - intros H i. destruct (nth_error (pool w) i) as [t|] eqn:E; auto.
    apply H. eapply nth_error_In; eauto.
  - intros H t Hin. destruct (In_nth_error _ _ Hin) as [i Hi].
    specialize (H i). now rewrite Hi in H.
Qed.

(** ** Relations closed under the steps of the workers *)

Lemma steps_closed (R : World -> World -> Prop) :
  worker_closed R -> forall tids w, R w (steps tids w).
Proof.
  intros HR tids. induction tids as [|tid tids IH]; intros w; simpl.
  - apply (wc_refl R HR).
  - eapply (wc_trans R HR); [apply (wc_step R HR) | apply IH].
Qed.

Lemma yield_closed (R : World -> World -> Prop) :
  worker_closed R -> forall w, R w (yield w).
Proof.
  intros HR w. unfold yield. destruct (sched w) as [|c rest].
  - apply (wc_refl R HR).
  - eapply (wc_trans R HR); [apply (wc_sched R HR) | now apply steps_closed].
Qed.

Lemma iter_step_closed (R : World -> World -> Prop) :
  worker_closed R -> forall tid n w, R w (Nat.iter n (step tid) w).
Proof.
  intros HR tid n. induction n as [|n IH]; intros w; simpl.
  - apply (wc_refl R HR).
  - eapply (wc_trans R HR); [apply IH | apply (wc_step R HR)].
Qed.

Lemma run_to_end_closed (R : World -> World -> Prop) :
  worker_closed R -> forall tid w, R w (run_to_end tid w).
Proof.
  intros HR tid w. unfold run_to_end. now apply iter_step_closed.
Qed.

Ltac step_cases tid w a k rest e s' Hn Hf :=
  unfold step;
  destruct (nth_error (pool w) tid) as [[[|] [|[a k] rest]]|] eqn:Hn;
  [ | destruct (func a k (st w)) as [[e|] s'] eqn:Hf | | | ].

Lemma frame_refl (w : World) : frame w w.
Proof. constructor; auto. Qed.

Lemma frame_trans (w1 w2 w3 : World) : frame w1 w2 -> frame w2 w3 -> frame w1 w3.
Proof.
  intros [T1 F1 M1 C1] [T2 F2 M2 C2]. constructor; try congruence.
  intros i. specialize (C1 i). specialize (C2 i). lia.
Qed.

Lemma flags_list_set (w : World) (tid : nat) (b : bool) (c c' : list action) :
  nth_error (pool w) tid = Some (mkThread b c) ->
  map th_started (list_set (pool w) tid (mkThread b c')) = flags w.
Proof.
  intros Hn. rewrite map_list_set. simpl. apply list_set_same.
  unfold flags. rewrite nth_error_map, Hn. reflexivity.
Qed.

Lemma code_left_list_set (w w' : World) (tid i : nat) (t t' : thread) :
  nth_error (pool w) tid = Some t ->
  pool w' = list_set (pool w) tid t' ->
  code_left i w' = if Nat.eqb tid i then length (th_code t') else code_left i w.
Proof.
  intros Hn Hp. unfold code_left. rewrite Hp.
  destruct (Nat.eqb_spec tid i) as [->|Hne].
  - now rewrite (nth_error_list_set_eq _ _ _ _ Hn).
  - now rewrite nth_error_list_set_neq.
Qed.

Lemma pending_list_set (w w' : World) (tid : nat) (t t' : thread) :
  nth_error (pool w) tid = Some t ->
  pool w' = list_set (pool w) tid t' ->
  (pending w' + length (th_code t) = pending w + length (th_code t'))%nat.
Proof.
  intros Hn Hp. unfold pending. rewrite Hp, map_list_set.
  apply list_sum_list_set. now rewrite nth_error_map, Hn.
Qed.

Lemma step_frame (tid : nat) (w : World) : frame w (step tid w).
Proof.
  step_cases tid w a k rest e s' Hn Hf; try apply frame_refl.
  - constructor; simpl.
    + reflexivity.
    + unfold flags at 1. simpl. eapply flags_list_set; eauto.
    + rewrite main_events_app. simpl. apply app_nil_r.
    + intros i. erewrite code_left_list_set by (eauto; reflexivity).
      destruct (Nat.eqb_spec tid i) as [->|]; auto.
      unfold code_left. rewrite Hn. simpl. lia.
  - constructor; simpl.
    + reflexivity.
    + unfold flags at 1. simpl. eapply flags_list_set; eauto.
    + rewrite main_events_app. simpl. apply app_nil_r.
    + intros i. erewrite code_left_list_set by (eauto; reflexivity).
      destruct (Nat.eqb_spec tid i) as [->|]; auto.
      unfold code_left. rewrite Hn. simpl. lia.
Qed.

Lemma frame_closed : worker_closed frame.
Proof.
  constructor.
  - apply frame_refl.
  - apply frame_trans.
  - apply step_frame.
  - intros w c. constructor; auto.
Qed.

Lemma account_refl (s : nat) (w : World) : account s w w.
Proof. constructor; auto. Qed.

Lemma account_trans (s : nat) (w1 w2 w3 : World) :
  account s w1 w2 -> account s w2 w3 -> account s w1 w3.
Proof.
  intros [M1 S1 B1 E1] [M2 S2 B2 E2]. constructor.
  - lia.
  - intros H. rewrite S2, S1; auto; lia.
  - lia.
  - intros H. specialize (E1 H). specialize (E2 H). lia.
Qed.

Lemma step_account (s tid : nat) (w : World) : account s w (step tid w).
Proof.
  step_cases tid w a k rest e s' Hn Hf; try apply account_refl.
  - pose proof (pending_list_set w
      (mkWorld s' (ticks w) (sched w) (list_set (pool w) tid (mkThread true []))
               (log w ++ [EvCall tid a k; EvRaise tid e]))
      tid _ (mkThread true []) Hn eq_refl) as Hp.
    simpl in Hp.
    constructor; simpl; rewrite ?calls_app, ?length_list_set;
      change (calls [EvCall tid a k; EvRaise tid e]) with 1%nat; try lia.
    intros Hnr. specialize (Hnr a k (st w)). rewrite Hf in Hnr. discriminate.
  - pose proof (pending_list_set w
      (mkWorld s' (ticks w) (sched w) (list_set (pool w) tid (mkThread true rest))
               (log w ++ [EvCall tid a k]))
      tid _ (mkThread true rest) Hn eq_refl) as Hp.
    simpl in Hp.
    constructor; simpl; rewrite ?calls_app, ?length_list_set;
      change (calls [EvCall tid a k]) with 1%nat; lia.
Qed.

Lemma account_closed (s : nat) : worker_closed (account s).
Proof.
  constructor.
  - apply account_refl.
  - apply account_trans.
  - apply step_account.
  - intros w c. constructor; auto.
Qed.

Lemma Forall_list_set {A : Type} (P : A -> Prop) (l : list A) (i : nat) (x : A) :
  Forall P l -> P x -> Forall P (list_set l i x).
Proof.
  intros Hl Hx. revert i. induction Hl as [|y l Hy Hl IH]; intros [|i]; simpl; auto.
Qed.

Lemma forwards_refl (a : pyargs) (k : pykwargs) (w : World) : forwards a k w w.
Proof.
  intros U. split; auto. exists []. now rewrite app_nil_r.
Qed.

Lemma forwards_trans (a : pyargs) (k : pykwargs) (w1 w2 w3 : World) :
  forwards a k w1 w2 -> forwards a k w2 w3 -> forwards a k w1 w3.
Proof.
  intros H1 H2 U.
  destruct (H1 U) as [U2 [n1 [E1 F1]]].
  destruct (H2 U2) as [U3 [n2 [E2 F2]]].
  split; auto. exists (n1 ++ n2). split.
  - now rewrite E2, E1, app_assoc.
  - apply Forall_app; auto.
Qed.

Lemma uniform_thread (a : pyargs) (k : pykwargs) (w : World) (tid : nat) (t : thread) :
  uniform a k w -> nth_error (pool w) tid = Some t ->
  Forall (eq (Call a k)) (th_code t).
Proof.
  intros U Hn. unfold uniform in U. rewrite Forall_forall in U.
  apply U. eapply nth_error_In; eauto.
Qed.

Lemma step_forwards (a : pyargs) (k : pykwargs) (tid : nat) (w : World) :
  forwards a k w (step tid w).
Proof.
  step_cases tid w a' k' rest e s' Hn Hf; try apply forwards_refl.
  - intros U. pose proof (uniform_thread _ _ _ _ _ U Hn) as Hc. simpl in Hc.
    inversion Hc as [|x l Hx Hl]; subst. injection Hx as <- <-.
    split.
    + unfold uniform. simpl. apply Forall_list_set; simpl; auto.
    + exists [EvCall tid a k; EvRaise tid e]. split; auto.
      repeat constructor.
  - intros U. pose proof (uniform_thread _ _ _ _ _ U Hn) as Hc. simpl in Hc.
    inversion Hc as [|x l Hx Hl]; subst. injection Hx as <- <-.
    split.
    + unfold uniform. simpl. apply Forall_list_set; auto.
    + exists [EvCall tid a k]. split; auto.
      repeat constructor.
Qed.

Lemma forwards_closed (a : pyargs) (k : pykwargs) : worker_closed (forwards a k).
Proof.
  constructor.
  - apply forwards_refl.
  - apply forwards_trans.
  - apply step_forwards.
  - intros w c U. split; auto. exists []. simpl. now rewrite app_nil_r.
Qed.

(** ** Relational reasoning on programs *)

Lemma sat_ret {A : Type} (R : World -> World -> Prop) (a : A) :
  worker_closed R -> sat (ret a) R.
Proof. intros HR w. apply (wc_refl R HR). Qed.

Lemma sat_lift {A : Type} (R : World -> World -> Prop) (r : result A) :
  worker_closed R -> sat (lift r) R.
Proof. intros HR w. apply (wc_refl R HR). Qed.

Lemma sat_bind {A B : Type} (R : World -> World -> Prop) (m : M A) (k : A -> M B) :
  worker_closed R -> sat m R -> (forall a, sat (k a) R) -> sat (bind m k) R.
Proof.
  intros HR Hm Hk w. unfold bind. specialize (Hm w).
  destruct (m w) as [[a|e] w1]; simpl in *; auto.
  eapply (wc_trans R HR); eauto. apply Hk.
Qed.

Lemma sat_for_each {A S : Type} (R : World -> World -> Prop)
      (body : A -> S -> M S) (xs : list A) :
  worker_closed R -> (forall x acc, sat (body x acc) R) ->
  forall acc, sat (for_each xs body acc) R.
Proof.
  intros HR Hb. induction xs as [|x xs IH]; intros acc; simpl.
  - now apply sat_ret.
  - apply sat_bind; auto.
Qed.

Lemma sat_for_range {S : Type} (R : World -> World -> Prop)
      (body : S -> M S) (n : Z) (acc : S) :
  worker_closed R -> (forall acc', sat (body acc') R) ->
  sat (for_range n body acc) R.
Proof.
  intros HR Hb. unfold for_range. apply sat_for_each; auto.
Qed.

(** A main-thread primitive: a yield followed by an update [u]. *)
Lemma sat_after_yield {A : Type} (R : World -> World -> Prop) (m : M A) :
  worker_closed R -> (forall w, R (yield w) (snd (m w))) -> sat m R.
Proof.
  intros HR H w.
  apply (wc_trans R HR w (yield w)); [apply (yield_closed R HR) | apply H].
Qed.

Lemma calls_snoc_main (l : list event) (e : event) :
  is_call e = false -> calls (l ++ [e]) = calls l.
Proof.
  intros H. rewrite calls_app. unfold calls at 2. simpl. rewrite H. simpl. lia.
Qed.

Lemma pending_snoc (p : list thread) (t : thread) :
  list_sum (map (fun t' => length (th_code t')) (p ++ [t]))
  = (list_sum (map (fun t' => length (th_code t')) p) + length (th_code t))%nat.
Proof.
  rewrite map_app, list_sum_app. simpl. lia.
Qed.

(** *** Calls are accounted for by every primitive *)

Lemma perf_counter_account (s : nat) : sat perf_counter (account s).
Proof.
  apply sat_after_yield; [apply account_closed|]. intros w.
  unfold perf_counter. simpl.
  constructor; simpl; rewrite ?calls_snoc_main by reflexivity; auto.
Qed.

Lemma Thread_account (s : nat) (code : list action) :
  length code = s -> sat (Thread code) (account s).
Proof.
  intros Hs. apply sat_after_yield; [apply account_closed|]. intros w.
  unfold Thread. simpl.
  constructor; simpl; rewrite ?calls_snoc_main by reflexivity; auto;
    unfold pending; simpl; rewrite pending_snoc, length_app; simpl; nia.
Qed.

Lemma Thread_start_account (s tid : nat) : sat (Thread_start tid) (account s).
Proof.
  apply sat_after_yield; [apply account_closed|]. intros w.
  unfold Thread_start.
  destruct (nth_error (pool (yield w)) tid) as [[[|] code]|] eqn:Hn; simpl;
    try apply account_refl.
  pose proof (pending_list_set (yield w)
    (mkWorld (st (yield w)) (ticks (yield w)) (sched (yield w))
             (list_set (pool (yield w)) tid (mkThread true code))
             (log (yield w) ++ [EvStart tid]))
    tid _ (mkThread true code) Hn eq_refl) as Hp.
  simpl in Hp.
  constructor; simpl; rewrite ?calls_snoc_main by reflexivity;
    rewrite ?length_list_set; auto; lia.
Qed.

Lemma emit_account (s : nat) (e : event) (w : World) :
  is_call e = false -> account s w (emit e w).
Proof.
  intros He. unfold emit.
  constructor; simpl; rewrite ?calls_snoc_main by assumption; auto.
Qed.

Lemma Thread_join_account (s tid : nat) : sat (Thread_join tid) (account s).
Proof.
  apply sat_after_yield; [apply account_closed|]. intros w.
  unfold Thread_join.
  destruct (nth_error (pool (yield w)) tid) as [[[|] code]|] eqn:Hn; simpl;
    try apply account_refl.
  eapply account_trans.
  - apply (run_to_end_closed _ (account_closed s)).
  - now apply emit_account.
Qed.

(** *** The arguments of the calls are those the threads were built with *)

Lemma emit_forwards (a : pyargs) (k : pykwargs) (e : event) (w : World) :
  is_call e = false -> forwards a k w (emit e w).
Proof.
  intros He U. split; auto. exists [e]. split; auto.
  constructor; auto. destruct e; simpl; auto. discriminate.
Qed.

Lemma perf_counter_forwards (a : pyargs) (k : pykwargs) :
  sat perf_counter (forwards a k).
Proof.
  apply sat_after_yield; [apply forwards_closed|]. intros w.
  unfold perf_counter. simpl. intros U. split; auto.
  eexists. split; [reflexivity|]. repeat constructor.
Qed.

Lemma Thread_forwards (a : pyargs) (k : pykwargs) (code : list action) :
  Forall (eq (Call a k)) code -> sat (Thread code) (forwards a k).
Proof.
  intros Hc. apply sat_after_yield; [apply forwards_closed|]. intros w.
  unfold Thread. simpl. intros U. split.
  - unfold uniform. simpl. apply Forall_app. split; auto.
  - eexists. split; [reflexivity|]. repeat constructor.
Qed.

Lemma Thread_start_forwards (a : pyargs) (k : pykwargs) (tid : nat) :
  sat (Thread_start tid) (forwards a k).
Proof.
  apply sat_after_yield; [apply forwards_closed|]. intros w.
  unfold Thread_start.
  destruct (nth_error (pool (yield w)) tid) as [[[|] code]|] eqn:Hn; simpl;
    try apply forwards_refl.
  intros U. split.
  - unfold uniform. simpl. apply Forall_list_set; auto.
    apply (uniform_thread _ _ _ _ _ U Hn).
  - eexists. split; [reflexivity|]. repeat constructor.
Qed.

Lemma Thread_join_forwards (a : pyargs) (k : pykwargs) (tid : nat) :
  sat (Thread_join tid) (forwards a k).
Proof.
  apply sat_after_yield; [apply forwards_closed|]. intros w.
  unfold Thread_join.
  destruct (nth_error (pool (yield w)) tid) as [[[|] code]|] eqn:Hn; simpl;
    try apply forwards_refl.
  eapply forwards_trans.
  - apply (run_to_end_closed _ (forwards_closed a k)).
  - now apply emit_forwards.
Qed.

Lemma worker_length (seq_iter : Z) (a : pyargs) (k : pykwargs) :
  length (worker seq_iter a k) = Z.to_nat seq_iter.
Proof.
  unfold worker. now rewrite length_map, length_seq.
Qed.

Lemma worker_uniform (seq_iter : Z) (a : pyargs) (k : pykwargs) :
  Forall (eq (Call a k)) (worker seq_iter a k).
Proof.
  unfold worker. apply Forall_map. apply Forall_forall. auto.
Qed.

(** Any relation that the primitives of a trial respect is respected by
    the trial and by the run. *)
Lemma trial_sat (R : World -> World -> Prop) (n_threads seq_iter : Z)
      (a : pyargs) (k : pykwargs) :
  worker_closed R ->
  sat perf_counter R ->
  sat (Thread (worker seq_iter a k)) R ->
  (forall tid, sat (Thread_start tid) R) ->
  (forall tid, sat (Thread_join tid) R) ->
  sat (trial n_threads seq_iter a k) R.
Proof.
  intros HR Hc Ht Hs Hj. unfold trial.
  apply sat_bind; [exact HR | exact Hc | intros t0].
  apply sat_bind; [exact HR | | intros threads].
  { apply sat_for_range; [exact HR | intros acc].
    apply sat_bind; [exact HR | exact Ht | intros tid; now apply sat_ret]. }
  apply sat_bind; [exact HR | | intros _].
  { apply sat_for_each; [exact HR | intros x acc; apply Hs]. }
  apply sat_bind; [exact HR | | intros _].
  { apply sat_for_each; [exact HR | intros x acc; apply Hj]. }
  apply sat_bind; [exact HR | exact Hc | intros t1; now apply sat_ret].
Qed.

Lemma wrapper_sat (R : World -> World -> Prop) (n_threads seq_iter iter : Z)
      (a : pyargs) (k : pykwargs) :
  worker_closed R ->
  sat (trial n_threads seq_iter a k) R ->
  sat (wrapper n_threads seq_iter iter a k) R.
Proof.
  intros HR Ht. unfold wrapper.
  apply sat_bind; [exact HR | | intros results].
  { apply sat_for_range; [exact HR | intros acc].
    apply sat_bind; [exact HR | exact Ht | intros t; now apply sat_ret]. }
  apply sat_bind; [exact HR | now apply sat_lift | intros avg].
  apply sat_bind; [exact HR | | intros v; now apply sat_ret].
  destruct (iter =? 1).
  - now apply sat_ret.
  - apply sat_bind; [exact HR | now apply sat_lift | intros v; now apply sat_ret].
Qed.

Lemma trial_account (n_threads seq_iter : Z) (a : pyargs) (k : pykwargs) :
  sat (trial n_threads seq_iter a k) (account (Z.to_nat seq_iter)).
Proof.
  apply trial_sat.
  - apply account_closed.
  - apply perf_counter_account.
  - apply Thread_account, worker_length.
  - intros tid. apply Thread_start_account.
  - intros tid. apply Thread_join_account.
Qed.

Lemma trial_forwards (n_threads seq_iter : Z) (a : pyargs) (k : pykwargs) :
  sat (trial n_threads seq_iter a k) (forwards a k).
Proof.
  apply trial_sat.
  - apply forwards_closed.
  - apply perf_counter_forwards.
  - apply Thread_forwards, worker_uniform.
  - intros tid. apply Thread_start_forwards.
  - intros tid. apply Thread_join_forwards.
Qed.

(** *** The calls of one thread *)

Lemma calls_by_app (tid : nat) (l1 l2 : list event) :
  calls_by tid (l1 ++ l2) = (calls_by tid l1 + calls_by tid l2)%nat.
Proof.
  unfold calls_by. now rewrite filter_app, length_app.
Qed.

Lemma calls_by_snoc_main (tid : nat) (l : list event) (e : event) :
  is_call e = false -> calls_by tid (l ++ [e]) = calls_by tid l.
Proof.
  intros H. rewrite calls_by_app. unfold calls_by at 2.
  destruct e; simpl in *; try discriminate; lia.
Qed.

Lemma calls_by_snoc_call (tid t : nat) (l : list event) (a : pyargs) (k : pykwargs) :
  calls_by tid (l ++ [EvCall t a k])
  = (calls_by tid l + if Nat.eqb t tid then 1 else 0)%nat.
Proof.
  rewrite calls_by_app. unfold calls_by at 2. simpl.
  destruct (Nat.eqb t tid); reflexivity.
Qed.

(** ** Total-correctness reasoning on programs *)

Lemma wp_ret {A : Type} (a : A) (Q : A -> World -> Prop) (w : World) :
  Q a w -> wp (ret a) Q w.
Proof. intros H. exists a, w. auto. Qed.

Lemma wp_bind {A B : Type} (m : M A) (k : A -> M B) (Q : B -> World -> Prop) (w : World) :
  wp m (fun a w' => wp (k a) Q w') w -> wp (bind m k) Q w.
Proof.
  intros [a [w1 [Hm [b [w2 [Hk HQ]]]]]]. exists b, w2. split; auto.
  unfold bind. now rewrite Hm.
Qed.

Lemma wp_mono {A : Type} (m : M A) (Q Q' : A -> World -> Prop) (w : World) :
  wp m Q w -> (forall a w', Q a w' -> Q' a w') -> wp m Q' w.
Proof.
  intros [a [w1 [Hm HQ]]] H. exists a, w1. auto.
Qed.

(** *** The primitives *)

Lemma yield_frame (w : World) : frame w (yield w).
Proof. apply yield_closed, frame_closed. Qed.

Lemma flags_length (w : World) : length (flags w) = length (pool w).
Proof. unfold flags. apply length_map. Qed.

Lemma perf_counter_wp (w : World) :
  wp perf_counter
     (fun t w' =>
        t = clock (ticks w) /\ ticks w' = S (ticks w) /\ flags w' = flags w /\
        main_events (log w') = main_events (log w) ++ [EvClock t] /\
        forall i, (code_left i w' <= code_left i w)%nat) w.
Proof.
  destruct (yield_frame w) as [T F E C].
  eexists. eexists. split; [reflexivity|]. simpl.
  rewrite main_events_app, T, E. repeat split; auto.
Qed.

Lemma Thread_wp (code : list action) (w : World) :
  wp (Thread code)
     (fun tid w' =>
        tid = length (pool w) /\ ticks w' = ticks w /\ flags w' = flags w ++ [false] /\
        main_events (log w') = main_events (log w) ++ [EvCreate tid] /\
        forall i, (i < length (pool w))%nat -> (code_left i w' <= code_left i w)%nat) w.
Proof.
  destruct (yield_frame w) as [T F E C].
  eexists. eexists. split; [reflexivity|]. simpl.
  rewrite main_events_app, E.
  assert (HL : length (pool (yield w)) = length (pool w))
    by now rewrite <- !flags_length, F.
  repeat split; auto.
  - unfold flags at 1. simpl. rewrite map_app. simpl. now fold (flags (yield w)); rewrite F.
  - intros i Hi. etransitivity; [|apply C].
    unfold code_left. simpl. rewrite nth_error_app1 by lia. auto.
Qed.

Lemma Thread_start_wp (tid : nat) (w : World) :
  nth_error (flags w) tid = Some false ->
  wp (Thread_start tid)
     (fun _ w' =>
        ticks w' = ticks w /\ flags w' = list_set (flags w) tid true /\
        main_events (log w') = main_events (log w) ++ [EvStart tid] /\
        forall i, (code_left i w' <= code_left i w)%nat) w.
Proof.
  intros Hf. destruct (yield_frame w) as [T F E C].
  rewrite <- F in Hf. unfold flags in Hf. rewrite nth_error_map in Hf.
  unfold wp, Thread_start.
  destruct (nth_error (pool (yield w)) tid) as [[[|] code]|] eqn:Hn; try discriminate.
  eexists. eexists. split; [reflexivity|]. simpl.
  rewrite main_events_app, E. repeat split; auto.
  - unfold flags at 1. simpl. rewrite map_list_set. simpl.
    now fold (flags (yield w)); rewrite F.
  - intros i. etransitivity; [|apply C].
    erewrite code_left_list_set by (eauto; reflexivity).
    destruct (Nat.eqb_spec tid i) as [->|]; auto.
    unfold code_left. rewrite Hn. auto.
Qed.

Lemma step_progress (tid : nat) (w : World) :
  nth_error (flags w) tid = Some true ->
  (code_left tid (step tid w) <= pred (code_left tid w))%nat.
Proof.
  intros Hf. unfold flags in Hf. rewrite nth_error_map in Hf.
  step_cases tid w a k rest e s' Hn Hf'; try discriminate;
    try (unfold code_left; rewrite Hn; simpl; lia).
  - erewrite code_left_list_set by (eauto; reflexivity).
    rewrite Nat.eqb_refl. simpl. lia.
  - erewrite code_left_list_set by (eauto; reflexivity).
    rewrite Nat.eqb_refl. unfold code_left. rewrite Hn. simpl. lia.
Qed.

Lemma iter_step_progress (tid n : nat) (w : World) :
  nth_error (flags w) tid = Some true ->
  (code_left tid (Nat.iter n (step tid) w) <= code_left tid w - n)%nat.
Proof.
  intros Hf. induction n as [|n IH]; simpl; [lia|].
  etransitivity; [apply step_progress|lia].
  destruct (iter_step_closed frame frame_closed tid n w) as [_ F _ _].
  now rewrite F.
Qed.

Lemma run_to_end_done (tid : nat) (w : World) :
  nth_error (flags w) tid = Some true -> code_left tid (run_to_end tid w) = O.
Proof.
  intros Hf. unfold run_to_end.
  pose proof (iter_step_progress tid (code_left tid w) w Hf). lia.
Qed.

Lemma Thread_join_wp (tid : nat) (w : World) :
  nth_error (flags w) tid = Some true ->
  wp (Thread_join tid)
     (fun _ w' =>
        ticks w' = ticks w /\ flags w' = flags w /\
        main_events (log w') = main_events (log w) ++ [EvJoin tid] /\
        (forall i, (code_left i w' <= code_left i w)%nat) /\
        code_left tid w' = O) w.
Proof.
  intros Hf. destruct (yield_frame w) as [T F E C].
  rewrite <- F in Hf. pose proof Hf as Hf'.
  unfold flags in Hf. rewrite nth_error_map in Hf.
  unfold wp, Thread_join.
  destruct (nth_error (pool (yield w)) tid) as [[[|] code]|] eqn:Hn; try discriminate.
  destruct (run_to_end_closed frame frame_closed tid (yield w)) as [T2 F2 E2 C2].
  eexists. eexists. split; [reflexivity|]. simpl.
  rewrite main_events_app, E2, E, T2, T. unfold flags at 1. simpl.
  fold (flags (run_to_end tid (yield w))). rewrite F2, F.
  repeat split; auto.
  - intros i. specialize (C i). specialize (C2 i).
    unfold code_left in *. simpl. lia.
  - pose proof (run_to_end_done tid (yield w) Hf') as Hd.
    unfold code_left in *. simpl. auto.
Qed.

(** *** The three loops of a trial *)

Lemma create_loop (code : list action) (m x : nat) :
  forall (acc : list nat) (w : World),
  wp (for_each (seq x m)
        (fun _ threads => thread <- Thread code ;; ret (threads ++ [thread])) acc)
     (fun threads w' =>
        threads = acc ++ seq (length (pool w)) m /\
        ticks w' = ticks w /\
        flags w' = flags w ++ repeat false m /\
        main_events (log w') = main_events (log w) ++ map EvCreate (seq (length (pool w)) m) /\
        forall i, (i < length (pool w))%nat -> (code_left i w' <= code_left i w)%nat) w.
Proof.
  revert x. induction m as [|m IH]; intros x acc w; simpl.
  - apply wp_ret. rewrite !app_nil_r. repeat split; auto.
  - apply wp_bind. apply wp_bind.
    eapply wp_mono; [apply Thread_wp|].
    intros tid w1 (-> & T1 & F1 & E1 & C1). apply wp_ret.
    eapply wp_mono; [apply IH|].
    intros threads w2 (-> & T2 & F2 & E2 & C2).
    assert (HL : length (pool w1) = S (length (pool w))).
    { rewrite <- !flags_length, F1, length_app. simpl. lia. }
    rewrite HL in *.
    repeat split.
    + now rewrite <- app_assoc.
    + congruence.
    + rewrite F2, F1, <- app_assoc. reflexivity.
    + rewrite E2, E1, <- app_assoc. reflexivity.
    + intros i Hi. etransitivity; [apply C2; lia | apply C1; lia].
Qed.

Lemma start_loop (m : nat) :
  forall (F1 F2 : list bool) (w : World),
  flags w = F1 ++ repeat false m ++ F2 ->
  wp (for_each (seq (length F1) m) (fun thread _ => Thread_start thread) tt)
     (fun _ w' =>
        ticks w' = ticks w /\
        flags w' = F1 ++ repeat true m ++ F2 /\
        main_events (log w') = main_events (log w) ++ map EvStart (seq (length F1) m) /\
        forall i, (code_left i w' <= code_left i w)%nat) w.
Proof.
  induction m as [|m IH]; intros F1 F2 w HF; simpl.
  - apply wp_ret. rewrite app_nil_r. repeat split; auto.
  - apply wp_bind.
    eapply wp_mono.
    { apply Thread_start_wp. rewrite HF. simpl.
      rewrite nth_error_app2 by lia. now rewrite Nat.sub_diag. }
    intros [] w1 (T1 & F1' & E1 & C1).
    assert (HF1 : flags w1 = (F1 ++ [true]) ++ repeat false m ++ F2).
    { rewrite F1', HF. simpl. rewrite list_set_app_mid, <- app_assoc. reflexivity. }
    pose proof (IH _ _ _ HF1) as IH1.
    rewrite length_app in IH1. cbn [length] in IH1. rewrite Nat.add_1_r in IH1.
    eapply wp_mono; [exact IH1|].
    intros [] w2 (T2 & F2' & E2 & C2).
    repeat split.
    + congruence.
    + rewrite F2', <- app_assoc. reflexivity.
    + rewrite E2, E1, <- app_assoc. reflexivity.
    + intros i. etransitivity; [apply C2 | apply C1].
Qed.

Lemma join_loop (m : nat) :
  forall (F1 F2 : list bool) (w : World),
  flags w = F1 ++ repeat true m ++ F2 ->
  wp (for_each (seq (length F1) m) (fun thread _ => Thread_join thread) tt)
     (fun _ w' =>
        ticks w' = ticks w /\
        flags w' = flags w /\
        main_events (log w') = main_events (log w) ++ map EvJoin (seq (length F1) m) /\
        (forall i, (code_left i w' <= code_left i w)%nat) /\
        forall i, (length F1 <= i < length F1 + m)%nat -> code_left i w' = O) w.
Proof.
  induction m as [|m IH]; intros F1 F2 w HF; simpl.
  - apply wp_ret. rewrite app_nil_r. repeat split; auto. intros i Hi. lia.
  - apply wp_bind.
    eapply wp_mono.
    { apply Thread_join_wp. rewrite HF. simpl.
      rewrite nth_error_app2 by lia. now rewrite Nat.sub_diag. }
    intros [] w1 (T1 & F1' & E1 & C1 & D1).
    assert (HF1 : flags w1 = (F1 ++ [true]) ++ repeat true m ++ F2).
    { rewrite F1', HF. simpl. rewrite <- app_assoc. reflexivity. }
    pose proof (IH _ _ _ HF1) as IH1.
    rewrite length_app in IH1. cbn [length] in IH1. rewrite Nat.add_1_r in IH1.
    eapply wp_mono; [exact IH1|].
    intros [] w2 (T2 & F2' & E2 & C2 & D2).
    repeat split.
    + congruence.
    + congruence.
    + rewrite E2, E1, <- app_assoc. reflexivity.
    + intros i. etransitivity; [apply C2 | apply C1].
    + intros i Hi. destruct (Nat.eq_dec i (length F1)) as [->|Hne].
      * specialize (C2 (length F1)). lia.
      * apply D2. lia.
Qed.

(** *** One trial *)

Lemma trial_wp (n_threads seq_iter : Z) (a : pyargs) (k : pykwargs) (w : World) :
  wp (trial n_threads seq_iter a k) (trial_post (Z.to_nat n_threads) w) w.
Proof.
  unfold trial, for_range.
  apply wp_bind. eapply wp_mono; [apply perf_counter_wp|].
  intros t0 w1 (-> & T1 & F1 & E1 & C1).
  assert (L1 : length (pool w1) = length (pool w)) by now rewrite <- !flags_length, F1.
  apply wp_bind. eapply wp_mono; [apply create_loop|].
  intros threads w2 (-> & T2 & F2 & E2 & C2). simpl.
  rewrite L1 in *.
  assert (HF2 : flags w2 = flags w ++ repeat false (Z.to_nat n_threads) ++ [])
    by now rewrite app_nil_r, F2, F1.
  assert (HL : length (flags w) = length (pool w)) by apply flags_length.
  apply wp_bind. rewrite <- HL.
  eapply wp_mono; [apply (start_loop _ _ _ _ HF2)|].
  intros [] w3 (T3 & F3 & E3 & C3).
  apply wp_bind.
  eapply wp_mono; [apply (join_loop _ _ _ _ F3)|].
  intros [] w4 (T4 & F4 & E4 & C4 & D4).
  apply wp_bind. eapply wp_mono; [apply perf_counter_wp|].
  intros t1 w5 (-> & T5 & F5 & E5 & C5).
  apply wp_ret. rewrite HL in *.
  assert (L5 : length (pool w5) = (length (pool w) + Z.to_nat n_threads)%nat).
  { rewrite <- (flags_length w5), F5, F4, F3, !length_app, repeat_length. simpl. lia. }
  constructor.
  - rewrite T4, T3, T2, T1. reflexivity.
  - rewrite T5, T4, T3, T2, T1. reflexivity.
  - rewrite F5, F4, F3, app_nil_r. reflexivity.
  - rewrite E5, E4, E3, E2, E1, T4, T3, T2, T1. unfold trial_trace.
    rewrite <- !app_assoc. reflexivity.
  - intros i Hi.
    etransitivity; [apply C5|]. etransitivity; [apply C4|].
    etransitivity; [apply C3|]. etransitivity; [apply C2; lia|]. apply C1.
  - intros i Hi.
    destruct (Nat.lt_ge_cases i (length (pool w) + Z.to_nat n_threads)) as [Hlt|Hge].
    + specialize (C5 i). rewrite D4 in C5; lia.
    + unfold code_left. rewrite <- L5 in Hge. apply nth_error_None in Hge.
      now rewrite Hge.
Qed.

Lemma trial_quiescent (n_threads seq_iter : Z) (a : pyargs) (k : pykwargs)
      (w w' : World) (t : Q) :
  trial_post (Z.to_nat n_threads) w t w' -> quiescent w -> quiescent w'.
Proof.
  intros [_ _ _ _ Hold Hnew] Hq. unfold quiescent in *.
  rewrite pending_code_left in *. intros i.
  destruct (Nat.lt_ge_cases i (length (pool w))) as [Hlt|Hge].
  - specialize (Hold i Hlt). specialize (Hq i). lia.
  - now apply Hnew.
Qed.

Lemma trial_post_length (n : nat) (w w' : World) (t : Q) :
  trial_post n w t w' -> length (pool w') = (length (pool w) + n)%nat.
Proof.
  intros [_ _ F _ _ _]. rewrite <- !flags_length, F, length_app, repeat_length.
  reflexivity.
Qed.

(** ** The statistics *)

Lemma count_of_cons (x : Q) (l : list Q) : (count_of (x :: l) == count_of l + 1)%Q.
Proof.
  unfold count_of. cbn [length]. rewrite Nat2Z.inj_succ, <- Z.add_1_r.
  rewrite inject_Z_plus. reflexivity.
Qed.

Lemma count_of_nonneg (l : list Q) : (0 <= count_of l)%Q.
Proof.
  unfold count_of, Qle. simpl. lia.
Qed.

Lemma count_of_gt_1 (l : list Q) : (2 <= length l)%nat -> (0 < count_of l - 1)%Q.
Proof.
  intros H. unfold count_of.
  assert (H1 : (1 < inject_Z (Z.of_nat (length l)))%Q).
  { change 1%Q with (inject_Z 1). rewrite <- Zlt_Qlt. lia. }
  lra.
Qed.

Lemma fsum_nonneg (l : list Q) : Forall (fun x => 0 <= x)%Q l -> (0 <= fsum l)%Q.
Proof.
  induction 1 as [|x l Hx Hl IH]; simpl.
  - apply Qle_refl.
  - lra.
Qed.

Lemma Qdiv_nonneg (a b : Q) : (0 <= a -> 0 <= b -> 0 <= a / b)%Q.
Proof.
  intros Ha Hb. unfold Qdiv. apply Qmult_le_0_compat; auto.
  now apply Qinv_le_0_compat.
Qed.

Lemma Qsquare_nonneg (a : Q) : (0 <= a * a)%Q.
Proof.
  destruct a as [n d]. unfold Qle. simpl. nia.
Qed.

(** [n * x^2 - 2 x (sum y) + sum y^2] is the sum of the [(x - y)^2]. *)
Lemma spread_nonneg (x : Q) (l : list Q) :
  (0 <= count_of l * (x * x) - 2 * x * fsum l + fsum (map (fun y => y * y) l))%Q.
Proof.
  induction l as [|y l IH].
  - change (count_of []) with 0%Q. simpl. nra.
  - pose proof (count_of_cons y l) as Hc. cbn [map fsum fold_right].
    fold (fsum l). fold (fsum (map (fun y => y * y)%Q l)).
    rewrite Hc.
    pose proof (Qsquare_nonneg (x - y)) as Hsq.
    nra.
Qed.

(** Cauchy-Schwarz: [n * sxx - sx * sx] is never negative. *)
Lemma sum_sq_nonneg (l : list Q) :
  (0 <= count_of l * fsum (map (fun x => x * x) l) - fsum l * fsum l)%Q.
Proof.
  induction l as [|x l IH].
  - change (count_of []) with 0%Q. simpl. nra.
  - pose proof (count_of_cons x l) as Hc. pose proof (spread_nonneg x l) as Hs.
    cbn [map fsum fold_right].
    fold (fsum l). fold (fsum (map (fun y => y * y)%Q l)).
    rewrite Hc. nra.
Qed.

Lemma sum_sq_dev_nonneg (l : list Q) : (0 <= sum_sq_dev l)%Q.
Proof.
  unfold sum_sq_dev. apply Qdiv_nonneg.
  - apply sum_sq_nonneg.
  - apply count_of_nonneg.
Qed.

Lemma statistics_mean_nonneg (l : list Q) (m : Q) :
  Forall (fun x => 0 <= x)%Q l -> statistics_mean l = Ok m -> (0 <= m)%Q.
Proof.
  intros Hl. unfold statistics_mean. destruct (length l <? 1)%nat; [discriminate|].
  intros [= <-]. apply Qdiv_nonneg.
  - now apply fsum_nonneg.
  - apply count_of_nonneg.
Qed.

Lemma statistics_variance_nonneg (l : list Q) (v : Q) :
  statistics_variance l = Ok v -> (0 <= v)%Q.
Proof.
  unfold statistics_variance. destruct (Nat.ltb_spec (length l) 2); [discriminate|].
  intros [= <-]. apply Qdiv_nonneg.
  - apply sum_sq_dev_nonneg.
  - apply Qlt_le_weak. now apply count_of_gt_1.
Qed.

(** ** The run *)

Lemma configs_of_app (l1 l2 : list event) :
  configs_of (l1 ++ l2) = configs_of l1 ++ configs_of l2.
Proof.
  induction l1 as [|e l1 IH]; simpl; auto.
  destruct (config_of e); simpl; now rewrite IH.
Qed.

Lemma configs_of_main (l : list event) :
  configs_of (main_events l) = configs_of l.
Proof.
  induction l as [|e l IH]; simpl; auto.
  destruct e; simpl; now rewrite ?IH.
Qed.

Lemma configs_of_none (l : list event) :
  Forall (fun e => config_of e = None) l -> configs_of l = [].
Proof.
  induction 1 as [|e l He Hl IH]; simpl; auto. now rewrite He.
Qed.

Lemma configs_of_trial_trace (n first : nat) (t0 t1 : Q) :
  configs_of (trial_trace n first t0 t1) = [].
Proof.
  apply configs_of_none. unfold trial_trace.
  repeat (apply Forall_app; split);
    try (apply Forall_map, Forall_forall; reflexivity);
    repeat constructor.
Qed.

Lemma trial_configs (n : nat) (w w' : World) (t : Q) :
  trial_post n w t w' -> configs_of (log w') = configs_of (log w).
Proof.
  intros [_ _ _ E _ _].
  rewrite <- (configs_of_main (log w')), E, configs_of_app,
    configs_of_main, configs_of_trial_trace.
  apply app_nil_r.
Qed.

Lemma length_timings (T m : nat) : length (timings T m) = m.
Proof.
  revert T. induction m as [|m IH]; intros T; simpl; auto.
Qed.

Lemma trials_loop (n_threads seq_iter : Z) (a : pyargs) (k : pykwargs) (m x : nat) :
  forall (acc : list Q) (w : World),
  wp (for_each (seq x m)
        (fun _ results =>
           execution_time <- trial n_threads seq_iter a k ;;
           ret (results ++ [execution_time])) acc)
     (fun results w' =>
        results = acc ++ timings (ticks w) m /\
        ticks w' = (ticks w + 2 * m)%nat /\
        length (pool w') = (length (pool w) + m * Z.to_nat n_threads)%nat /\
        (quiescent w -> quiescent w') /\
        configs_of (log w') = configs_of (log w)) w.
Proof.
  revert x. induction m as [|m IH]; intros x acc w; simpl.
  - apply wp_ret. rewrite app_nil_r, !Nat.add_0_r. repeat split; auto.
  - apply wp_bind. apply wp_bind.
    eapply wp_mono; [apply trial_wp|].
    intros t w1 Hpost. apply wp_ret.
    eapply wp_mono; [apply IH|].
    intros results w2 (-> & T2 & L2 & Q2 & C2).
    pose proof (trial_post_length _ _ _ _ Hpost) as L1.
    pose proof (trial_configs _ _ _ _ Hpost) as C1.
    pose proof (trial_quiescent n_threads seq_iter a k _ _ _ Hpost) as Q1.
    destruct Hpost as [Ht T1 _ _ _ _].
    repeat split.
    + rewrite <- app_assoc, T1, Ht. reflexivity.
    + lia.
    + lia.
    + auto.
    + congruence.
Qed.

(** The run returns what [summarize] computes from the elapsed times of
    its trials. *)
Lemma wrapper_run (n_threads seq_iter iter : Z) (a : pyargs) (k : pykwargs) (w : World) :
  exists w',
    wrapper n_threads seq_iter iter a k w
    = (summarize n_threads seq_iter iter a (timings (ticks w) (Z.to_nat iter)), w') /\
    ticks w' = (ticks w + 2 * Z.to_nat iter)%nat /\
    length (pool w') = (length (pool w) + Z.to_nat iter * Z.to_nat n_threads)%nat /\
    (quiescent w -> quiescent w') /\
    configs_of (log w') = configs_of (log w).
Proof.
  destruct (trials_loop n_threads seq_iter a k (Z.to_nat iter) 0 [] w)
    as (results & w' & Hrun & -> & Hrest).
  exists w'. split; auto.
  unfold wrapper, for_range, bind at 1. rewrite Hrun. simpl.
  unfold summarize, bind, lift, ret.
  destruct (statistics_mean (timings (ticks w) (Z.to_nat iter))) as [avg|e]; auto.
  destruct (iter =? 1); auto.
  destruct (statistics_variance (timings (ticks w) (Z.to_nat iter))) as [v|e]; auto.
Qed.

Lemma wrapper_snd (n_threads seq_iter iter : Z) (a : pyargs) (k : pykwargs) (w : World) :
  fst (wrapper n_threads seq_iter iter a k w)
  = summarize n_threads seq_iter iter a (timings (ticks w) (Z.to_nat iter)).
Proof.
  destruct (wrapper_run n_threads seq_iter iter a k w) as (w' & -> & _). reflexivity.
Qed.

Lemma summarize_ok (n_threads seq_iter iter : Z) (a : pyargs) (l : list Q) :
  (1 <= length l)%nat -> ((iter =? 1) = true \/ (2 <= length l)%nat) ->
  exists avg var,
    statistics_mean l = Ok avg /\
    (if iter =? 1 then var = VInt 0
     else exists v, statistics_variance l = Ok v /\ var = VFloat v) /\
    summarize n_threads seq_iter iter a l
    = Ok (result_dict n_threads seq_iter iter a avg var).
Proof.
  intros H1 H2. unfold summarize, statistics_mean, statistics_variance.
  destruct (Nat.ltb_spec (length l) 1) as [|_]; [lia|].
  destruct (iter =? 1) eqn:E.
  - eexists. eexists. repeat split.
  - destruct H2 as [|H2]; [discriminate|].
    destruct (Nat.ltb_spec (length l) 2) as [|_]; [lia|].
    eexists. eexists. split; [reflexivity|]. split; [|reflexivity].
    eexists. split; reflexivity.
Qed.

Lemma timings_nonneg (m T : nat) :
  (forall j, (j < m)%nat -> clock (T + 2 * j) <= clock (T + 2 * j + 1))%Q ->
  Forall (fun x => 0 <= x)%Q (timings T m).
Proof.
  revert T. induction m as [|m IH]; intros T H; simpl; constructor.
  - specialize (H O (Nat.lt_0_succ m)).
    replace (T + 2 * 0)%nat with T in H by lia.
    replace (T + 1)%nat with (S T) in H by lia. lra.
  - apply IH. intros j Hj. specialize (H (S j) (proj1 (Nat.succ_lt_mono j m) Hj)).
    replace (T + 2 * S j)%nat with (S (S T) + 2 * j)%nat in H by lia. exact H.
Qed.

Lemma quiescent_uniform (a : pyargs) (k : pykwargs) (w : World) :
  quiescent w -> uniform a k w.
Proof.
  unfold quiescent, pending, uniform. rewrite list_sum_zero, Forall_map.
  apply Forall_impl. intros t Ht.
  destruct (th_code t); [constructor | discriminate].
Qed.

Lemma wrapper_account (n_threads seq_iter iter : Z) (a : pyargs) (k : pykwargs) (w : World) :
  account (Z.to_nat seq_iter) w (snd (wrapper n_threads seq_iter iter a k w)).
Proof.
  apply wrapper_sat; [apply account_closed | apply trial_account].
Qed.

Lemma timings_length_ok (iter : Z) (T : nat) :
  1 <= iter ->
  (1 <= length (timings T (Z.to_nat iter)))%nat /\
  ((iter =? 1) = true \/ (2 <= length (timings T (Z.to_nat iter)))%nat).
Proof.
  intros H. rewrite length_timings. split; [lia|].
  destruct (Z.eqb_spec iter 1); [now left | right; lia].
Qed.


(** ** More bookkeeping of the calls *)

(** *** Every thread that has code makes a call *)

Lemma live_list_set (w w' : World) (tid : nat) (t t' : thread) :
  nth_error (pool w) tid = Some t ->
  pool w' = list_set (pool w) tid t' ->
  (live w' + Nat.min 1 (length (th_code t))
   = live w + Nat.min 1 (length (th_code t')))%nat.
Proof.
  intros Hn Hp. unfold live. rewrite Hp, map_list_set.
  apply list_sum_list_set. now rewrite nth_error_map, Hn.
Qed.

Lemma live_le_pending (w : World) : (live w <= pending w)%nat.
Proof.
  unfold live, pending, list_sum. induction (pool w) as [|t p IH]; [simpl; lia|].
  cbn [map fold_right]. pose proof (Nat.le_min_r 1 (length (th_code t))). lia.
Qed.

Lemma quiescent_live (w : World) : quiescent w -> live w = O.
Proof.
  unfold quiescent. pose proof (live_le_pending w). lia.
Qed.

Lemma activity_refl (s : nat) (w : World) : activity s w w.
Proof. unfold activity. lia. Qed.

Lemma activity_trans (s : nat) (w1 w2 w3 : World) :
  activity s w1 w2 -> activity s w2 w3 -> activity s w1 w3.
Proof. unfold activity. lia. Qed.

Lemma step_activity (s tid : nat) (w : World) : activity s w (step tid w).
Proof.
  step_cases tid w a k rest e s' Hn Hf; try apply activity_refl.
  - pose proof (live_list_set w
      (mkWorld s' (ticks w) (sched w) (list_set (pool w) tid (mkThread true []))
               (log w ++ [EvCall tid a k; EvRaise tid e]))
      tid _ (mkThread true []) Hn eq_refl) as Hp.
    cbn [pool th_code length] in Hp.
    unfold activity. cbn [pool log]. rewrite calls_app, length_list_set.
    change (calls [EvCall tid a k; EvRaise tid e]) with 1%nat. lia.
  - pose proof (live_list_set w
      (mkWorld s' (ticks w) (sched w) (list_set (pool w) tid (mkThread true rest))
               (log w ++ [EvCall tid a k]))
      tid _ (mkThread true rest) Hn eq_refl) as Hp.
    cbn [pool th_code length] in Hp.
    unfold activity. cbn [pool log]. rewrite calls_app, length_list_set.
    change (calls [EvCall tid a k]) with 1%nat. lia.
Qed.

Lemma activity_closed (s : nat) : worker_closed (activity s).
Proof.
  constructor.
  - apply activity_refl.
  - apply activity_trans.
  - apply step_activity.
  - intros w c. unfold activity. cbn [pool log]. unfold live. cbn [pool]. lia.
Qed.

Lemma emit_activity (s : nat) (e : event) (w : World) :
  is_call e = false -> activity s w (emit e w).
Proof.
  intros He. unfold emit, activity, live. cbn [pool log].
  rewrite calls_snoc_main by assumption. lia.
Qed.

Lemma perf_counter_activity (s : nat) : sat perf_counter (activity s).
Proof.
  apply sat_after_yield; [apply activity_closed|]. intros w.
  unfold perf_counter, activity, live. cbn [snd pool log].
  rewrite calls_snoc_main by reflexivity. lia.
Qed.

Lemma Thread_activity (s : nat) (code : list action) :
  length code = s -> sat (Thread code) (activity s).
Proof.
  intros Hs. apply sat_after_yield; [apply activity_closed|]. intros w.
  unfold Thread, activity, live. cbn [snd pool log].
  rewrite calls_snoc_main by reflexivity.
  rewrite map_app, list_sum_app, length_app. cbn [map list_sum fold_right th_code length].
  rewrite Hs. nia.
Qed.

Lemma Thread_start_activity (s tid : nat) : sat (Thread_start tid) (activity s).
Proof.
  apply sat_after_yield; [apply activity_closed|]. intros w.
  unfold Thread_start.
  destruct (nth_error (pool (yield w)) tid) as [[[|] code]|] eqn:Hn; cbn [snd];
    try apply activity_refl.
  pose proof (live_list_set (yield w)
    (mkWorld (st (yield w)) (ticks (yield w)) (sched (yield w))
             (list_set (pool (yield w)) tid (mkThread true code))
             (log (yield w) ++ [EvStart tid]))
    tid _ (mkThread true code) Hn eq_refl) as Hp.
  cbn [th_code] in Hp.
  unfold activity. cbn [pool log].
  rewrite calls_snoc_main by reflexivity. rewrite length_list_set. lia.
Qed.

Lemma Thread_join_activity (s tid : nat) : sat (Thread_join tid) (activity s).
Proof.
  apply sat_after_yield; [apply activity_closed|]. intros w.
  unfold Thread_join.
  destruct (nth_error (pool (yield w)) tid) as [[[|] code]|] eqn:Hn; cbn [snd];
    try apply activity_refl.
  eapply activity_trans.
  - apply (run_to_end_closed _ (activity_closed s)).
  - now apply emit_activity.
Qed.

Lemma trial_activity (n_threads seq_iter : Z) (a : pyargs) (k : pykwargs) :
  sat (trial n_threads seq_iter a k) (activity (Z.to_nat seq_iter)).
Proof.
  apply trial_sat.
  - apply activity_closed.
  - apply perf_counter_activity.
  - apply Thread_activity, worker_length.
  - intros tid. apply Thread_start_activity.
  - intros tid. apply Thread_join_activity.
Qed.

Lemma wrapper_activity (n_threads seq_iter iter : Z) (a : pyargs) (k : pykwargs) (w : World) :
  activity (Z.to_nat seq_iter) w (snd (wrapper n_threads seq_iter iter a k w)).
Proof.
  apply wrapper_sat; [apply activity_closed | apply trial_activity].
Qed.

(** *** Runs whose calls all have the same arguments *)

Lemma conduct_refl (a : pyargs) (k : pykwargs) (s : nat) (w : World) :
  conduct a k s w w.
Proof.
  intros U. constructor; auto. now rewrite Nat.sub_diag.
Qed.

Lemma conduct_trans (a : pyargs) (k : pykwargs) (s : nat) (w1 w2 w3 : World) :
  conduct a k s w1 w2 -> conduct a k s w2 w3 -> conduct a k s w1 w3.
Proof.
  intros C12 C23 U1.
  destruct (C12 U1) as [U2 M1 S1 R1 X1]. destruct (C23 U2) as [U3 M2 S2 R2 X2].
  constructor.
  - exact U3.
  - lia.
  - rewrite S2, S1, <- Nat.iter_add. f_equal. lia.
  - intros H. specialize (R1 H). specialize (R2 H). lia.
  - intros H. specialize (X1 H). specialize (X2 H). lia.
Qed.

Lemma step_conduct (a : pyargs) (k : pykwargs) (s tid : nat) (w : World) :
  conduct a k s w (step tid w).
Proof.
  step_cases tid w a' k' rest e s' Hn Hf; try apply conduct_refl.
  - intros U. pose proof (uniform_thread _ _ _ _ _ U Hn) as Hc. simpl in Hc.
    inversion Hc as [|x l Hx Hl]; subst. injection Hx as <- <-.
    pose proof (live_list_set w
      (mkWorld s' (ticks w) (sched w) (list_set (pool w) tid (mkThread true []))
               (log w ++ [EvCall tid a k; EvRaise tid e]))
      tid _ (mkThread true []) Hn eq_refl) as Hp.
    cbn [pool th_code length] in Hp.
    constructor; cbn [st pool log]; rewrite ?calls_app, ?length_list_set;
      change (calls [EvCall tid a k; EvRaise tid e]) with 1%nat.
    + unfold uniform. cbn [pool]. apply Forall_list_set; simpl; auto.
    + lia.
    + replace (calls (log w) + 1 - calls (log w))%nat with 1%nat by lia.
      cbn [Nat.iter nat_rect]. unfold state_after. now rewrite Hf.
    + intros Hr. specialize (Hr (st w)). rewrite Hf in Hr. discriminate.
    + intros _. lia.
  - intros U. pose proof (uniform_thread _ _ _ _ _ U Hn) as Hc. simpl in Hc.
    inversion Hc as [|x l Hx Hl]; subst. injection Hx as <- <-.
    pose proof (pending_list_set w
      (mkWorld s' (ticks w) (sched w) (list_set (pool w) tid (mkThread true rest))
               (log w ++ [EvCall tid a k]))
      tid _ (mkThread true rest) Hn eq_refl) as Hp.
    cbn [pool th_code length] in Hp.
    constructor; cbn [st pool log]; rewrite ?calls_app, ?length_list_set;
      change (calls [EvCall tid a k]) with 1%nat.
    + unfold uniform. cbn [pool]. apply Forall_list_set; auto.
    + lia.
    + replace (calls (log w) + 1 - calls (log w))%nat with 1%nat by lia.
      cbn [Nat.iter nat_rect]. unfold state_after. now rewrite Hf.
    + intros _. lia.
    + intros Hr. specialize (Hr (st w)). rewrite Hf in Hr. now elim Hr.
Qed.

(** A change made by the main thread that leaves the code of the old
    threads, the calls recorded and the state alone. *)
Lemma conduct_main (a : pyargs) (k : pykwargs) (s : nat) (w w' : World) :
  (uniform a k w -> uniform a k w') ->
  calls (log w') = calls (log w) ->
  (pending w' + s * length (pool w) = pending w + s * length (pool w'))%nat ->
  (live w' + Nat.min 1 s * length (pool w)
   = live w + Nat.min 1 s * length (pool w'))%nat ->
  st w' = st w ->
  conduct a k s w w'.
Proof.
  intros HU HC HP HL HS U. constructor; auto.
  - lia.
  - now rewrite HC, Nat.sub_diag.
  - intros _. lia.
  - intros _. lia.
Qed.

Lemma conduct_closed (a : pyargs) (k : pykwargs) (s : nat) :
  worker_closed (conduct a k s).
Proof.
  constructor.
  - apply conduct_refl.
  - apply conduct_trans.
  - apply step_conduct.
  - intros w c. apply conduct_main; auto.
Qed.

Lemma emit_conduct (a : pyargs) (k : pykwargs) (s : nat) (e : event) (w : World) :
  is_call e = false -> conduct a k s w (emit e w).
Proof.
  intros He. apply conduct_main; auto.
  unfold emit. cbn [log]. now apply calls_snoc_main.
Qed.

Lemma perf_counter_conduct (a : pyargs) (k : pykwargs) (s : nat) :
  sat perf_counter (conduct a k s).
Proof.
  apply sat_after_yield; [apply conduct_closed|]. intros w.
  unfold perf_counter. cbn [snd]. apply conduct_main; auto.
  cbn [log]. now apply calls_snoc_main.
Qed.

Lemma Thread_conduct (a : pyargs) (k : pykwargs) (s : nat) (code : list action) :
  Forall (eq (Call a k)) code -> length code = s ->
  sat (Thread code) (conduct a k s).
Proof.
  intros Hc Hs. apply sat_after_yield; [apply conduct_closed|]. intros w.
  unfold Thread. cbn [snd]. apply conduct_main; cbn [st pool log]; auto.
  - intros U. unfold uniform. cbn [pool]. apply Forall_app. split; auto.
  - now apply calls_snoc_main.
  - unfold pending. cbn [pool]. rewrite pending_snoc, length_app.
    cbn [th_code length]. nia.
  - unfold live. cbn [pool]. rewrite map_app, list_sum_app, length_app.
    cbn [map list_sum fold_right th_code length]. rewrite Hs. nia.
Qed.

Lemma Thread_start_conduct (a : pyargs) (k : pykwargs) (s tid : nat) :
  sat (Thread_start tid) (conduct a k s).
Proof.
  apply sat_after_yield; [apply conduct_closed|]. intros w.
  unfold Thread_start.
  destruct (nth_error (pool (yield w)) tid) as [[[|] code]|] eqn:Hn; cbn [snd];
    try apply conduct_refl.
  pose proof (pending_list_set (yield w)
    (mkWorld (st (yield w)) (ticks (yield w)) (sched (yield w))
             (list_set (pool (yield w)) tid (mkThread true code))
             (log (yield w) ++ [EvStart tid]))
    tid _ (mkThread true code) Hn eq_refl) as Hp.
  pose proof (live_list_set (yield w)
    (mkWorld (st (yield w)) (ticks (yield w)) (sched (yield w))
             (list_set (pool (yield w)) tid (mkThread true code))
             (log (yield w) ++ [EvStart tid]))
    tid _ (mkThread true code) Hn eq_refl) as Hl.
  cbn [th_code] in Hp, Hl.
  apply conduct_main; cbn [st pool log]; auto.
  - intros U. unfold uniform. cbn [pool]. apply Forall_list_set; auto.
    apply (uniform_thread _ _ _ _ _ U Hn).
  - now apply calls_snoc_main.
  - rewrite length_list_set. lia.
  - rewrite length_list_set. lia.
Qed.

Lemma Thread_join_conduct (a : pyargs) (k : pykwargs) (s tid : nat) :
  sat (Thread_join tid) (conduct a k s).
Proof.
  apply sat_after_yield; [apply conduct_closed|]. intros w.
  unfold Thread_join.
  destruct (nth_error (pool (yield w)) tid) as [[[|] code]|] eqn:Hn; cbn [snd];
    try apply conduct_refl.
  eapply conduct_trans.
  - apply (run_to_end_closed _ (conduct_closed a k s)).
  - now apply emit_conduct.
Qed.

Lemma trial_conduct (n_threads seq_iter : Z) (a : pyargs) (k : pykwargs) :
  sat (trial n_threads seq_iter a k) (conduct a k (Z.to_nat seq_iter)).
Proof.
  apply trial_sat.
  - apply conduct_closed.
  - apply perf_counter_conduct.
  - apply Thread_conduct; [apply worker_uniform | apply worker_length].
  - intros tid. apply Thread_start_conduct.
  - intros tid. apply Thread_join_conduct.
Qed.

(** What a run started when no thread is running leaves: the bookkeeping of
    its calls, no thread running, and [iter * n_threads] more threads. *)
Lemma wrapper_conducted (n_threads seq_iter iter : Z) (a : pyargs) (k : pykwargs) (w : World) :
  quiescent w ->
  conducted a k (Z.to_nat seq_iter) w (snd (wrapper n_threads seq_iter iter a k w)) /\
  quiescent (snd (wrapper n_threads seq_iter iter a k w)) /\
  length (pool (snd (wrapper n_threads seq_iter iter a k w)))
  = (length (pool w) + Z.to_nat iter * Z.to_nat n_threads)%nat.
Proof.
  intros Hq. split; [|].
  - assert (Hc : conduct a k (Z.to_nat seq_iter) w
                   (snd (wrapper n_threads seq_iter iter a k w))).
    { apply wrapper_sat; [apply conduct_closed | apply trial_conduct]. }
    apply Hc. now apply quiescent_uniform.
  - destruct (wrapper_run n_threads seq_iter iter a k w) as (w' & Hrun & _ & HL & Hq' & _).
    rewrite Hrun. cbn [snd]. auto.
Qed.

(** *** The main thread's trace of a run *)

Lemma sink_events_app (l1 l2 : list event) :
  sink_events (l1 ++ l2) = sink_events l1 ++ sink_events l2.
Proof. unfold sink_events. apply filter_app. Qed.

Lemma sink_events_main (l : list event) :
  sink_events (main_events l) = sink_events l.
Proof.
  induction l as [|e l IH]; simpl; auto.
  destruct e; simpl; now rewrite ?IH.
Qed.

Lemma sink_events_none (l : list event) :
  Forall (fun e => is_sink e = false) l -> sink_events l = [].
Proof.
  induction 1 as [|e l He Hl IH]; simpl; auto. now rewrite He.
Qed.

Lemma sink_events_trial_trace (n first : nat) (t0 t1 : Q) :
  sink_events (trial_trace n first t0 t1) = [].
Proof.
  apply sink_events_none. unfold trial_trace.
  repeat (apply Forall_app; split);
    try (apply Forall_map, Forall_forall; reflexivity);
    repeat constructor.
Qed.

Lemma sink_events_run_trace (n m : nat) :
  forall first T, sink_events (run_trace n first T m) = [].
Proof.
  induction m as [|m IH]; intros first T; cbn [run_trace]; auto.
  now rewrite sink_events_app, sink_events_trial_trace, IH.
Qed.

Lemma trials_trace (n_threads seq_iter : Z) (a : pyargs) (k : pykwargs) (m x : nat) :
  forall (acc : list Q) (w : World),
  wp (for_each (seq x m)
        (fun _ results =>
           execution_time <- trial n_threads seq_iter a k ;;
           ret (results ++ [execution_time])) acc)
     (fun _ w' =>
        main_events (log w')
        = main_events (log w)
            ++ run_trace (Z.to_nat n_threads) (length (pool w)) (ticks w) m /\
        flags w' = flags w ++ repeat true (m * Z.to_nat n_threads)) w.
Proof.
  revert x. induction m as [|m IH]; intros x acc w;
    cbn [seq for_each run_trace Nat.mul Nat.add repeat].
  - apply wp_ret. now rewrite !app_nil_r.
  - apply wp_bind. apply wp_bind.
    eapply wp_mono; [apply trial_wp|].
    intros t w1 Hpost. apply wp_ret.
    eapply wp_mono; [apply IH|].
    intros results w2 (E2 & F2).
    pose proof (trial_post_length _ _ _ _ Hpost) as L1.
    destruct Hpost as [_ T1 F1 E1 _ _].
    rewrite L1, T1 in E2. split.
    + rewrite E2, E1, <- app_assoc. reflexivity.
    + rewrite F2, F1, <- app_assoc, <- repeat_app. reflexivity.
Qed.

(** The statistics at the end of a run leave the world alone. *)
Lemma wrapper_world (n_threads seq_iter iter : Z) (a : pyargs) (k : pykwargs) (w : World) :
  snd (wrapper n_threads seq_iter iter a k w)
  = snd (for_range iter
           (fun results =>
              execution_time <- trial n_threads seq_iter a k ;;
              ret (results ++ [execution_time])) [] w).
Proof.
  unfold wrapper, bind at 1.
  destruct (for_range iter _ [] w) as [[results|e] w']; [|reflexivity].
  unfold bind, lift, ret. cbn [snd].
  destruct (statistics_mean results) as [avg|e]; [|reflexivity].
  destruct (iter =? 1); [reflexivity|].
  destruct (statistics_variance results) as [v|e]; reflexivity.
Qed.

Lemma wrapper_trace (n_threads seq_iter iter : Z) (a : pyargs) (k : pykwargs) (w : World) :
  main_events (log (snd (wrapper n_threads seq_iter iter a k w)))
  = main_events (log w)
      ++ run_trace (Z.to_nat n_threads) (length (pool w)) (ticks w) (Z.to_nat iter) /\
  flags (snd (wrapper n_threads seq_iter iter a k w))
  = flags w ++ repeat true (Z.to_nat iter * Z.to_nat n_threads).
Proof.
  rewrite wrapper_world. unfold for_range.
  destruct (trials_trace n_threads seq_iter a k (Z.to_nat iter) 0 [] w)
    as (results & w' & Hrun & H).
  rewrite Hrun. exact H.
Qed.

Lemma wrapper_sink (n_threads seq_iter iter : Z) (a : pyargs) (k : pykwargs) (w : World) :
  sink_events (log (snd (wrapper n_threads seq_iter iter a k w)))
  = sink_events (log w).
Proof.
  destruct (wrapper_trace n_threads seq_iter iter a k w) as [E _].
  rewrite <- sink_events_main, E, sink_events_app, sink_events_main,
    sink_events_run_trace.
  apply app_nil_r.
Qed.

(** *** More on the statistics *)

Lemma fsum_equal (d : Q) (l : list Q) :
  Forall (fun x => x == d)%Q l ->
  (fsum l == count_of l * d /\
   fsum (map (fun x => x * x) l) == count_of l * (d * d))%Q.
Proof.
  induction 1 as [|x l Hx Hl [IH1 IH2]].
  - change (count_of []) with 0%Q. simpl. split; ring.
  - pose proof (count_of_cons x l) as Hc.
    cbn [map fsum fold_right].
    fold (fsum l). fold (fsum (map (fun y => y * y)%Q l)).
    rewrite Hc, IH1, IH2, Hx. split; ring.
Qed.

Lemma statistics_variance_equal (d : Q) (l : list Q) (v : Q) :
  Forall (fun x => x == d)%Q l -> statistics_variance l = Ok v -> (v == 0)%Q.
Proof.
  intros Hl. unfold statistics_variance.
  destruct (length l <? 2)%nat; [discriminate|].
  intros [= <-]. destruct (fsum_equal d l Hl) as [H1 H2].
  unfold sum_sq_dev. cbv zeta. rewrite H1, H2.
  assert (E : (count_of l * (count_of l * (d * d))
               - count_of l * d * (count_of l * d) == 0)%Q) by ring.
  rewrite E. unfold Qdiv. now rewrite !Qmult_0_l.
Qed.

Lemma timings_Forall (P : Q -> Prop) (m T : nat) :
  (forall j, (j < m)%nat -> P (clock (T + 2 * j + 1) - clock (T + 2 * j))%Q) ->
  Forall P (timings T m).
Proof.
  revert T. induction m as [|m IH]; intros T H; simpl; constructor.
  - specialize (H O (Nat.lt_0_succ m)).
    replace (T + 2 * 0 + 1)%nat with (S T) in H by lia.
    replace (T + 2 * 0)%nat with T in H by lia. exact H.
  - apply IH. intros j Hj. specialize (H (S j) (proj1 (Nat.succ_lt_mono j m) Hj)).
    replace (T + 2 * S j + 1)%nat with (S (S T) + 2 * j + 1)%nat in H by lia.
    replace (T + 2 * S j)%nat with (S (S T) + 2 * j)%nat in H by lia. exact H.
Qed.

(** *** One configuration of the sweep *)

Lemma sweep_step (n_threads seq_iter iter : Z) (args : pyargs) (f : string) (w : World) :
  1 <= iter ->
  exists w' d,
    (result <- bench n_threads seq_iter iter args [] ;;
     print (VDict result) ;;;
     print (VStr f) ;;;
     write_file f (json_dumps result)) w = (Ok tt, w') /\
    summarize n_threads seq_iter iter args (timings (ticks w) (Z.to_nat iter)) = Ok d /\
    sink_events (log w')
    = sink_events (log w) ++ [EvPrint (VDict d); EvPrint (VStr f); EvWrite f (json_dumps d)] /\
    ticks w' = (ticks w + 2 * Z.to_nat iter)%nat /\
    (quiescent w ->
     quiescent w' /\
     conducted args [] (Z.to_nat seq_iter) w w' /\
     length (pool w') = (length (pool w) + Z.to_nat iter * Z.to_nat n_threads)%nat).
Proof.
  intros Hi. unfold bench.
  destruct (wrapper_run n_threads seq_iter iter args [] w) as (w1 & Hrun & HT & _).
  pose proof (wrapper_sink n_threads seq_iter iter args [] w) as Hsink.
  pose proof (wrapper_conducted n_threads seq_iter iter args [] w) as Hcond.
  rewrite Hrun in Hsink, Hcond. cbn [snd] in Hsink, Hcond.
  destruct (timings_length_ok iter (ticks w) Hi) as [H1 H2].
  destruct (summarize_ok n_threads seq_iter iter args _ H1 H2) as (avg & var & _ & _ & Hs).
  rewrite Hs in Hrun.
  set (d := result_dict n_threads seq_iter iter args avg var) in *.
  exists (emit (EvWrite f (json_dumps d))
            (emit (EvPrint (VStr f)) (emit (EvPrint (VDict d)) w1))), d.
  split; [|split; [exact Hs|split; [|split]]].
  - unfold bind at 1. rewrite Hrun. reflexivity.
  - cbn [log emit]. rewrite <- !app_assoc, sink_events_app, Hsink. reflexivity.
  - exact HT.
  - intros Hq. destruct (Hcond Hq) as (Hc & Hq1 & HL). split; [|split].
    + exact Hq1.
    + assert (Hu : uniform args [] w) by now apply quiescent_uniform.
      assert (C1 : conduct args [] (Z.to_nat seq_iter) w w1) by (intros _; exact Hc).
      assert (C2 : conduct args [] (Z.to_nat seq_iter) w1
                     (emit (EvPrint (VDict d)) w1))
        by (apply emit_conduct; reflexivity).
      assert (C3 : conduct args [] (Z.to_nat seq_iter) (emit (EvPrint (VDict d)) w1)
                     (emit (EvPrint (VStr f)) (emit (EvPrint (VDict d)) w1)))
        by (apply emit_conduct; reflexivity).
      assert (C4 : conduct args [] (Z.to_nat seq_iter)
                     (emit (EvPrint (VStr f)) (emit (EvPrint (VDict d)) w1))
                     (emit (EvWrite f (json_dumps d))
                        (emit (EvPrint (VStr f)) (emit (EvPrint (VDict d)) w1))))
        by (apply emit_conduct; reflexivity).
      exact (conduct_trans _ _ _ _ _ _ C1
               (conduct_trans _ _ _ _ _ _ C2
                  (conduct_trans _ _ _ _ _ _ C3 C4)) Hu).
    + exact HL.
Qed.

(** *** The same, thread by thread *)

Lemma count_refl (a : pyargs) (k : pykwargs) (s : nat) (w : World) :
  count a k s w w.
Proof.
  intros U. constructor; auto; intros _ tid H; lia.
Qed.

Lemma count_trans (a : pyargs) (k : pykwargs) (s : nat) (w1 w2 w3 : World) :
  count a k s w1 w2 -> count a k s w2 w3 -> count a k s w1 w3.
Proof.
  intros C12 C23 U1.
  destruct (C12 U1) as [U2 L1 X1 RO1 RN1 FO1 FN1].
  destruct (C23 U2) as [U3 L2 X2 RO2 RN2 FO2 FN2].
  constructor.
  - exact U3.
  - lia.
  - intros tid Hge. rewrite (X2 tid Hge). apply X1. lia.
  - intros Hr tid Hlt. rewrite (RO2 Hr tid) by lia. now apply RO1.
  - intros Hr tid Hin.
    destruct (Nat.lt_ge_cases tid (length (pool w2))) as [Hlt|Hge].
    + rewrite (RO2 Hr tid Hlt). apply (RN1 Hr). lia.
    + rewrite (RN2 Hr tid) by lia. now rewrite (X1 tid Hge).
  - intros Hf tid Hlt. rewrite (FO2 Hf tid) by lia. now apply FO1.
  - intros Hf tid Hin.
    destruct (Nat.lt_ge_cases tid (length (pool w2))) as [Hlt|Hge].
    + rewrite (FO2 Hf tid Hlt). apply (FN1 Hf). lia.
    + rewrite (FN2 Hf tid) by lia. now rewrite (X1 tid Hge).
Qed.

(** A change made by the main thread that leaves the code of the threads
    and the calls recorded alone. *)
Lemma count_main (a : pyargs) (k : pykwargs) (s : nat) (w w' : World) :
  (uniform a k w -> uniform a k w') ->
  length (pool w') = length (pool w) ->
  (forall tid, code_left tid w' = code_left tid w) ->
  (forall tid, calls_by tid (log w') = calls_by tid (log w)) ->
  count a k s w w'.
Proof.
  intros HU HL HC HB U. constructor; auto; try lia;
    try (intros _ tid H; lia);
    intros _ tid _; now rewrite HC, HB.
Qed.

Lemma step_count (a : pyargs) (k : pykwargs) (s tid : nat) (w : World) :
  count a k s w (step tid w).
Proof.
  step_cases tid w a' k' rest e s' Hn Hf; try apply count_refl.
  - intros U. pose proof (uniform_thread _ _ _ _ _ U Hn) as Hc. simpl in Hc.
    inversion Hc as [|x l Hx Hl]; subst. injection Hx as <- <-.
    assert (Hcalls : forall t,
      calls_by t (log w ++ [EvCall tid a k; EvRaise tid e])
      = (calls_by t (log w) + if Nat.eqb tid t then 1 else 0)%nat).
    { intros t.
      change (log w ++ [EvCall tid a k; EvRaise tid e])
        with (log w ++ [EvCall tid a k] ++ [EvRaise tid e]).
      rewrite app_assoc, calls_by_snoc_main by reflexivity.
      apply calls_by_snoc_call. }
    assert (Hlt : (tid < length (pool w))%nat)
      by (apply nth_error_Some; congruence).
    constructor; cbn [pool log]; rewrite ?length_list_set.
    + unfold uniform. cbn [pool]. apply Forall_list_set; simpl; auto.
    + lia.
    + intros t Hge. rewrite Hcalls. destruct (Nat.eqb_spec tid t); lia.
    + intros Hr. specialize (Hr (st w)). rewrite Hf in Hr. discriminate.
    + intros _ t H. lia.
    + intros _ t Ht. rewrite Hcalls.
      erewrite code_left_list_set by (eauto; reflexivity).
      destruct (Nat.eqb_spec tid t) as [->|]; [|lia].
      unfold code_left. rewrite Hn. cbn [th_code length]. lia.
    + intros _ t H. lia.
  - intros U. pose proof (uniform_thread _ _ _ _ _ U Hn) as Hc. simpl in Hc.
    inversion Hc as [|x l Hx Hl]; subst. injection Hx as <- <-.
    assert (Hlt : (tid < length (pool w))%nat)
      by (apply nth_error_Some; congruence).
    constructor; cbn [pool log]; rewrite ?length_list_set.
    + unfold uniform. cbn [pool]. apply Forall_list_set; auto.
    + lia.
    + intros t Hge. rewrite calls_by_snoc_call. destruct (Nat.eqb_spec tid t); lia.
    + intros _ t Ht. rewrite calls_by_snoc_call.
      erewrite code_left_list_set by (eauto; reflexivity).
      destruct (Nat.eqb_spec tid t) as [->|]; [|lia].
      unfold code_left. rewrite Hn. cbn [th_code length]. lia.
    + intros _ t H. lia.
    + intros Hr. specialize (Hr (st w)). rewrite Hf in Hr. now elim Hr.
    + intros _ t H. lia.
Qed.

Lemma count_closed (a : pyargs) (k : pykwargs) (s : nat) :
  worker_closed (count a k s).
Proof.
  constructor.
  - apply count_refl.
  - apply count_trans.
  - apply step_count.
  - intros w c. now apply count_main.
Qed.

Lemma perf_counter_count (a : pyargs) (k : pykwargs) (s : nat) :
  sat perf_counter (count a k s).
Proof.
  apply sat_after_yield; [apply count_closed|]. intros w.
  unfold perf_counter. cbn [snd]. apply count_main; cbn [pool log]; auto.
  intros tid. now apply calls_by_snoc_main.
Qed.

Lemma Thread_count (a : pyargs) (k : pykwargs) (s : nat) (code : list action) :
  Forall (eq (Call a k)) code -> length code = s ->
  sat (Thread code) (count a k s).
Proof.
  intros Hc Hs. apply sat_after_yield; [apply count_closed|]. intros w.
  unfold Thread. cbn [snd]. intros U.
  assert (Hold : forall tid, (tid < length (pool (yield w)))%nat ->
     code_left tid
       (mkWorld (st (yield w)) (ticks (yield w)) (sched (yield w))
                (pool (yield w) ++ [mkThread false code])
                (log (yield w) ++ [EvCreate (length (pool (yield w)))]))
     = code_left tid (yield w)).
  { intros tid Hlt. unfold code_left. cbn [pool]. now rewrite nth_error_app1. }
  assert (Hnew :
     code_left (length (pool (yield w)))
       (mkWorld (st (yield w)) (ticks (yield w)) (sched (yield w))
                (pool (yield w) ++ [mkThread false code])
                (log (yield w) ++ [EvCreate (length (pool (yield w)))]))
     = s).
  { unfold code_left. cbn [pool].
    rewrite nth_error_app2, Nat.sub_diag by lia. exact Hs. }
  constructor; cbn [pool log]; rewrite ?length_app; cbn [length].
  - unfold uniform. cbn [pool]. apply Forall_app. split; auto.
  - lia.
  - intros tid Hge. now apply calls_by_snoc_main.
  - intros _ tid Hlt. rewrite calls_by_snoc_main by reflexivity.
    now rewrite Hold.
  - intros _ tid Hin. rewrite calls_by_snoc_main by reflexivity.
    assert (tid = length (pool (yield w))) as -> by lia. now rewrite Hnew.
  - intros _ tid Hlt. rewrite calls_by_snoc_main by reflexivity.
    now rewrite Hold.
  - intros _ tid Hin. rewrite calls_by_snoc_main by reflexivity.
    assert (tid = length (pool (yield w))) as -> by lia. now rewrite Hnew.
Qed.

Lemma Thread_start_count (a : pyargs) (k : pykwargs) (s tid : nat) :
  sat (Thread_start tid) (count a k s).
Proof.
  apply sat_after_yield; [apply count_closed|]. intros w.
  unfold Thread_start.
  destruct (nth_error (pool (yield w)) tid) as [[[|] code]|] eqn:Hn; cbn [snd];
    try apply count_refl.
  apply count_main; cbn [pool log].
  - intros U. unfold uniform. cbn [pool]. apply Forall_list_set; auto.
    apply (uniform_thread _ _ _ _ _ U Hn).
  - apply length_list_set.
  - intros t. erewrite code_left_list_set by (eauto; reflexivity).
    destruct (Nat.eqb_spec tid t) as [->|]; auto.
    unfold code_left. now rewrite Hn.
  - intros t. now apply calls_by_snoc_main.
Qed.

Lemma Thread_join_count (a : pyargs) (k : pykwargs) (s tid : nat) :
  sat (Thread_join tid) (count a k s).
Proof.
  apply sat_after_yield; [apply count_closed|]. intros w.
  unfold Thread_join.
  destruct (nth_error (pool (yield w)) tid) as [[[|] code]|] eqn:Hn; cbn [snd];
    try apply count_refl.
  eapply count_trans.
  - apply (run_to_end_closed _ (count_closed a k s)).
  - apply count_main.
    + intros U. exact U.
    + reflexivity.
    + intros t. reflexivity.
    + intros t. unfold emit. cbn [log]. now apply calls_by_snoc_main.
Qed.

Lemma trial_count (n_threads seq_iter : Z) (a : pyargs) (k : pykwargs) :
  sat (trial n_threads seq_iter a k) (count a k (Z.to_nat seq_iter)).
Proof.
  apply trial_sat.
  - apply count_closed.
  - apply perf_counter_count.
  - apply Thread_count; [apply worker_uniform | apply worker_length].
  - intros tid. apply Thread_start_count.
  - intros tid. apply Thread_join_count.
Qed.

Lemma wrapper_counted (n_threads seq_iter iter : Z) (a : pyargs) (k : pykwargs) (w : World) :
  quiescent w ->
  counted a k (Z.to_nat seq_iter) w (snd (wrapper n_threads seq_iter iter a k w)).
Proof.
  intros Hq.
  assert (Hc : count a k (Z.to_nat seq_iter) w
                 (snd (wrapper n_threads seq_iter iter a k w))).
  { apply wrapper_sat; [apply count_closed | apply trial_count]. }
  apply Hc. now apply quiescent_uniform.
Qed.

(** One trial started when no thread is running. *)
Lemma trial_facts (n_threads seq_iter : Z) (a : pyargs) (k : pykwargs) (w : World) :
  quiescent w ->
  conducted a k (Z.to_nat seq_iter) w (snd (trial n_threads seq_iter a k w)) /\
  counted a k (Z.to_nat seq_iter) w (snd (trial n_threads seq_iter a k w)) /\
  quiescent (snd (trial n_threads seq_iter a k w)) /\
  length (pool (snd (trial n_threads seq_iter a k w)))
  = (length (pool w) + Z.to_nat n_threads)%nat.
Proof.
  intros Hq. pose proof (quiescent_uniform a k w Hq) as Hu.
  split; [apply (trial_conduct n_threads seq_iter a k w Hu)|].
  split; [apply (trial_count n_threads seq_iter a k w Hu)|].
  destruct (trial_wp n_threads seq_iter a k w) as (t & w1 & Hrun & Hpost).
  rewrite Hrun. cbn [snd]. split.
  - exact (trial_quiescent n_threads seq_iter a k _ _ _ Hpost Hq).
  - exact (trial_post_length _ _ _ _ Hpost).
Qed.

(** ** The claims *)

(** C1: with [iter = 1] the run returns a result whose ['variance'] is
    exactly the integer 0, whatever the clock reads and whatever
    [n_threads] and [seq_iter] are.  The one-sample case is special-cased:
    [statistics.variance] is not called, and it would raise on the single
    elapsed time. *)
Theorem C1_single_trial_variance_zero
        (n_threads seq_iter : Z) (args : pyargs) (kwargs : pykwargs) (w : World) :
  exists d,
    fst (wrapper n_threads seq_iter 1 args kwargs w) = Ok d /\
    dict_get "variance" d = Some (VInt 0) /\
    exists e, statistics_variance (timings (ticks w) (Z.to_nat 1)) = Raise e.
Proof.
  rewrite wrapper_snd. change (Z.to_nat 1) with 1%nat. simpl timings.
  unfold summarize, statistics_mean, statistics_variance. simpl.
  eexists. split; [reflexivity|]. split; [reflexivity|].
  eexists. reflexivity.
Qed.

(** C10: with [iter = 0] no trial runs: the world is left as it was (no
    clock reading, no thread, no workload call), and the run fails with the
    error that [statistics.mean] raises on the empty list of elapsed times.
    No result is returned. *)
Theorem C10_zero_trials_fail_in_mean
        (n_threads seq_iter : Z) (args : pyargs) (kwargs : pykwargs) (w : World) :
  wrapper n_threads seq_iter 0 args kwargs w
  = (Raise (StatisticsError "mean requires at least one data point"), w) /\
  for_range 0 (fun results =>
                 execution_time <- trial n_threads seq_iter args kwargs ;;
                 ret (results ++ [execution_time])) [] w = (Ok [], w) /\
  statistics_mean [] = Raise (StatisticsError "mean requires at least one data point").
Proof.
  repeat split.
Qed.

(** C8: for a valid configuration the run returns a dict with exactly the
    keys fun, args, n_threads, seq_iter, iter, mean and variance, holding
    the workload's name, the positional arguments and the three parameters
    as they were given. *)
Theorem C8_result_echoes_config
        (n_threads seq_iter iter : Z) (args : pyargs) (kwargs : pykwargs) (w : World) :
  1 <= n_threads -> 1 <= seq_iter -> 1 <= iter ->
  exists d avg var,
    fst (wrapper n_threads seq_iter iter args kwargs w) = Ok d /\
    dict_keys d = ["fun"; "args"; "n_threads"; "seq_iter"; "iter"; "mean"; "variance"]%string /\
    dict_get "fun" d = Some (VStr func_name) /\
    dict_get "args" d = Some (VTuple args) /\
    dict_get "n_threads" d = Some (VInt n_threads) /\
    dict_get "seq_iter" d = Some (VInt seq_iter) /\
    dict_get "iter" d = Some (VInt iter) /\
    dict_get "mean" d = Some (VFloat avg) /\
    dict_get "variance" d = Some var.
Proof.
  intros _ _ Hi. rewrite wrapper_snd.
  destruct (timings_length_ok iter (ticks w) Hi) as [H1 H2].
  destruct (summarize_ok n_threads seq_iter iter args _ H1 H2) as (avg & var & _ & _ & Hs).
  exists (result_dict n_threads seq_iter iter args avg var), avg, var.
  repeat split; auto.
Qed.

(** C7: for a valid configuration, when each trial's end reading is not
    before its start reading, the returned mean is not negative; and with
    more than one trial the returned variance is not negative. *)
Theorem C7_mean_and_variance_nonneg
        (n_threads seq_iter iter : Z) (args : pyargs) (kwargs : pykwargs) (w : World) :
  1 <= n_threads -> 1 <= seq_iter -> 1 <= iter ->
  (forall j, (j < Z.to_nat iter)%nat ->
             clock (ticks w + 2 * j) <= clock (ticks w + 2 * j + 1))%Q ->
  exists d avg,
    fst (wrapper n_threads seq_iter iter args kwargs w) = Ok d /\
    dict_get "mean" d = Some (VFloat avg) /\ (0 <= avg)%Q /\
    (1 < iter -> exists v, dict_get "variance" d = Some (VFloat v) /\ (0 <= v)%Q).
Proof.
  intros _ _ Hi Hclock. rewrite wrapper_snd.
  destruct (timings_length_ok iter (ticks w) Hi) as [H1 H2].
  destruct (summarize_ok n_threads seq_iter iter args _ H1 H2) as (avg & var & Hm & Hv & Hs).
  exists (result_dict n_threads seq_iter iter args avg var), avg.
  repeat split; auto.
  - eapply statistics_mean_nonneg; [|exact Hm]. now apply timings_nonneg.
  - intros Hgt. destruct (Z.eqb_spec iter 1) as [|_]; [lia|].
    destruct Hv as (v & Hv & ->). exists v. split; auto.
    eapply statistics_variance_nonneg; eauto.
Qed.

(** C2, as the code has it: with [n_threads < 1], [seq_iter < 1] or
    [iter < 1] the workload is never called and its state is untouched, but
    nothing checks the configuration.  With [iter >= 1] the run returns a
    result that echoes the values given; with [iter < 1] it fails with the
    error of [statistics.mean] on the empty list. *)
Theorem C2_invalid_config_is_not_checked
        (n_threads seq_iter iter : Z) (args : pyargs) (kwargs : pykwargs) (w : World) :
  quiescent w ->
  n_threads < 1 \/ seq_iter < 1 \/ iter < 1 ->
  calls (log (snd (wrapper n_threads seq_iter iter args kwargs w))) = calls (log w) /\
  st (snd (wrapper n_threads seq_iter iter args kwargs w)) = st w /\
  (1 <= iter ->
   exists avg var,
     fst (wrapper n_threads seq_iter iter args kwargs w)
     = Ok (result_dict n_threads seq_iter iter args avg var)) /\
  (iter < 1 ->
   fst (wrapper n_threads seq_iter iter args kwargs w)
   = Raise (StatisticsError "mean requires at least one data point")).
Proof.
  intros Hq Hbad.
  pose proof (wrapper_account n_threads seq_iter iter args kwargs w) as [Hm Hs Hb _].
  destruct (wrapper_run n_threads seq_iter iter args kwargs w) as (w' & Hrun & _ & HL & _ & _).
  rewrite Hrun in *. simpl in *. unfold quiescent in Hq.
  assert (Hc : calls (log w') = calls (log w)).
  { rewrite HL, Hq in Hb.
    assert (Hz : (Z.to_nat seq_iter * (Z.to_nat iter * Z.to_nat n_threads) = 0)%nat).
    { destruct Hbad as [H|[H|H]].
      - replace (Z.to_nat n_threads) with O by lia. lia.
      - replace (Z.to_nat seq_iter) with O by lia. lia.
      - replace (Z.to_nat iter) with O by lia. lia. }
    rewrite Nat.mul_add_distr_l, Hz in Hb. lia. }
  repeat split; auto.
  - intros Hi.
    destruct (timings_length_ok iter (ticks w) Hi) as [H1 H2].
    destruct (summarize_ok n_threads seq_iter iter args _ H1 H2) as (avg & var & _ & _ & Hsum).
    exists avg, var. exact Hsum.
  - intros Hi. replace (Z.to_nat iter) with O by lia. reflexivity.
Qed.

(** C3, as the code has it: an exception of the workload ends the worker
    thread it was raised in and goes no further.  A run of at least one
    trial in which some invocation raised still returns a result, computed
    from the elapsed times of all its trials. *)
Theorem C3_worker_failure_is_not_surfaced
        (n_threads seq_iter iter : Z) (args : pyargs) (kwargs : pykwargs) (w : World) :
  1 <= iter ->
  (exists tid e, In (EvRaise tid e) (log (snd (wrapper n_threads seq_iter iter args kwargs w)))) ->
  exists avg var,
    fst (wrapper n_threads seq_iter iter args kwargs w)
    = Ok (result_dict n_threads seq_iter iter args avg var) /\
    statistics_mean (timings (ticks w) (Z.to_nat iter)) = Ok avg /\
    length (timings (ticks w) (Z.to_nat iter)) = Z.to_nat iter.
Proof.
  intros Hi _. rewrite wrapper_snd.
  destruct (timings_length_ok iter (ticks w) Hi) as [H1 H2].
  destruct (summarize_ok n_threads seq_iter iter args _ H1 H2) as (avg & var & Hm & _ & Hsum).
  exists avg, var. repeat split; auto. apply length_timings.
Qed.

(** C4, as the code has it: for a valid configuration and a workload that
    returns normally on the arguments of the call, a trial started when no
    thread is running makes exactly [n_threads * seq_iter] workload calls,
    [seq_iter] of them in each of its [n_threads] threads, and leaves no
    thread running, so that the whole run makes
    [iter * n_threads * seq_iter] calls. *)
Theorem C4_calls_per_trial
        (n_threads seq_iter iter : Z) (args : pyargs) (kwargs : pykwargs) (w : World) :
  returns_on args kwargs -> quiescent w ->
  1 <= n_threads -> 1 <= seq_iter -> 1 <= iter ->
  Z.of_nat (calls (log (snd (trial n_threads seq_iter args kwargs w))))
  = Z.of_nat (calls (log w)) + n_threads * seq_iter /\
  (forall tid,
     (length (pool w) <= tid < length (pool w) + Z.to_nat n_threads)%nat ->
     Z.of_nat (calls_by tid (log (snd (trial n_threads seq_iter args kwargs w))))
     = Z.of_nat (calls_by tid (log w)) + seq_iter) /\
  quiescent (snd (trial n_threads seq_iter args kwargs w)) /\
  Z.of_nat (calls (log (snd (wrapper n_threads seq_iter iter args kwargs w))))
  = Z.of_nat (calls (log w)) + iter * (n_threads * seq_iter).
Proof.
  intros Hr Hq Hn Hs Hi.
  destruct (trial_facts n_threads seq_iter args kwargs w Hq)
    as ([_ _ _ Hc _] & [_ _ _ _ Hnew _ _] & Hq1 & HL1).
  specialize (Hc Hr). specialize (Hnew Hr).
  destruct (wrapper_conducted n_threads seq_iter iter args kwargs w Hq)
    as ([_ _ _ Hc2 _] & Hq2 & HL2).
  specialize (Hc2 Hr).
  pose proof Hq1 as Hp1. pose proof Hq2 as Hp2.
  unfold quiescent in Hq, Hp1, Hp2.
  rewrite Hq, Hp1, HL1 in Hc. rewrite Hq, Hp2, HL2 in Hc2.
  split; [nia|]. split; [|split; [exact Hq1 | nia]].
  intros tid Htid. rewrite HL1 in Hnew. specialize (Hnew tid Htid).
  rewrite (proj1 (pending_code_left _) Hp1 tid) in Hnew. lia.
Qed.

(** C6, as the code has it: in each trial the main thread reads the start
    time first, then creates its [n_threads] threads, starts them all,
    joins them all, and reads the end time; the elapsed time is the
    difference of the two readings, and every thread of the trial has
    finished when the trial returns. *)
Theorem C6_start_time_precedes_creation
        (n_threads seq_iter : Z) (args : pyargs) (kwargs : pykwargs) (w : World) :
  exists t w',
    trial n_threads seq_iter args kwargs w = (Ok t, w') /\
    main_events (log w')
    = main_events (log w)
        ++ [EvClock (clock (ticks w))]
        ++ map EvCreate (seq (length (pool w)) (Z.to_nat n_threads))
        ++ map EvStart (seq (length (pool w)) (Z.to_nat n_threads))
        ++ map EvJoin (seq (length (pool w)) (Z.to_nat n_threads))
        ++ [EvClock (clock (S (ticks w)))] /\
    t = (clock (S (ticks w)) - clock (ticks w))%Q /\
    forall tid, (length (pool w) <= tid)%nat -> code_left tid w' = O.
Proof.
  destruct (trial_wp n_threads seq_iter args kwargs w) as (t & w' & Hrun & [Ht _ _ Hm _ Hn]).
  exists t, w'. repeat split; auto.
Qed.

(** C9: in a run started when no thread is running, every workload call
    receives the positional and the keyword arguments of the wrapper call;
    the value returned does not depend on the keyword arguments, and a
    returned dict has no key for them: its ['args'] is the tuple of the
    positional arguments. *)
Theorem C9_kwargs_forwarded_not_recorded
        (n_threads seq_iter iter : Z) (args : pyargs) (kwargs : pykwargs) (w : World) :
  quiescent w ->
  (exists new,
     log (snd (wrapper n_threads seq_iter iter args kwargs w)) = log w ++ new /\
     Forall (call_has args kwargs) new) /\
  (forall kwargs',
     fst (wrapper n_threads seq_iter iter args kwargs' w)
     = fst (wrapper n_threads seq_iter iter args kwargs w)) /\
  (forall d,
     fst (wrapper n_threads seq_iter iter args kwargs w) = Ok d ->
     dict_keys d = ["fun"; "args"; "n_threads"; "seq_iter"; "iter"; "mean"; "variance"]%string /\
     dict_get "args" d = Some (VTuple args)).
Proof.
  intros Hq. split; [|split].
  - assert (Hf : forwards args kwargs w (snd (wrapper n_threads seq_iter iter args kwargs w))).
    { apply wrapper_sat; [apply forwards_closed | apply trial_forwards]. }
    destruct (Hf (quiescent_uniform args kwargs w Hq)) as [_ Hnew]. exact Hnew.
  - intros kwargs'. now rewrite !wrapper_snd.
  - intros d. rewrite wrapper_snd. unfold summarize.
    destruct (statistics_mean _) as [avg|e]; [|discriminate].
    destruct (iter =? 1).
    + intros [= <-]. split; reflexivity.
    + destruct (statistics_variance _) as [v|e]; [|discriminate].
      intros [= <-]. split; reflexivity.
Qed.


(** ** Further properties *)

(** *** What a run does *)

(** X2: Whatever the workload does, a run started when no thread is running
    makes at least as many calls as it creates threads, [iter * n_threads]
    (none when [seq_iter < 1]), and at most [seq_iter] times as many; and
    no thread is running when it returns. *)
Theorem run_calls_between
        (n_threads seq_iter iter : Z) (args : pyargs) (kwargs : pykwargs) (w : World) :
  quiescent w ->
  (calls (log w)
   + Z.to_nat iter * Z.to_nat n_threads * Nat.min 1 (Z.to_nat seq_iter)
   <= calls (log (snd (wrapper n_threads seq_iter iter args kwargs w))))%nat /\
  (calls (log (snd (wrapper n_threads seq_iter iter args kwargs w)))
   <= calls (log w) + Z.to_nat iter * Z.to_nat n_threads * Z.to_nat seq_iter)%nat /\
  quiescent (snd (wrapper n_threads seq_iter iter args kwargs w)).
Proof.
  intros Hq.
  pose proof (wrapper_activity n_threads seq_iter iter args kwargs w) as Hlow.
  pose proof (wrapper_account n_threads seq_iter iter args kwargs w) as [_ _ Hup _].
  destruct (wrapper_conducted n_threads seq_iter iter args kwargs w Hq) as (_ & Hq' & HL).
  unfold activity in Hlow.
  rewrite (quiescent_live _ Hq), (quiescent_live _ Hq'), HL in Hlow.
  unfold quiescent in Hq. rewrite Hq, HL in Hup.
  pose proof Hq' as Hp. unfold quiescent in Hp. rewrite Hp in Hup.
  split; [nia|]. split; [nia|]. exact Hq'.
Qed.

(** X3: The trials of a run do not overlap: the main thread's trace of the run
    is the trace of [iter] trials one after the other, each with its own
    new threads and the next two clock readings.  The run reads the clock
    [2 * iter] times, starts every thread it creates, leaves the older
    thread objects as they were, and prints and writes nothing. *)
Theorem run_is_a_sequence_of_trials
        (n_threads seq_iter iter : Z) (args : pyargs) (kwargs : pykwargs) (w : World) :
  main_events (log (snd (wrapper n_threads seq_iter iter args kwargs w)))
  = main_events (log w)
      ++ run_trace (Z.to_nat n_threads) (length (pool w)) (ticks w) (Z.to_nat iter) /\
  ticks (snd (wrapper n_threads seq_iter iter args kwargs w))
  = (ticks w + 2 * Z.to_nat iter)%nat /\
  flags (snd (wrapper n_threads seq_iter iter args kwargs w))
  = flags w ++ repeat true (Z.to_nat iter * Z.to_nat n_threads) /\
  sink_events (log (snd (wrapper n_threads seq_iter iter args kwargs w)))
  = sink_events (log w).
Proof.
  destruct (wrapper_trace n_threads seq_iter iter args kwargs w) as [E F].
  pose proof (wrapper_sink n_threads seq_iter iter args kwargs w) as S.
  destruct (wrapper_run n_threads seq_iter iter args kwargs w) as (w' & Hrun & HT & _).
  rewrite Hrun in *. cbn [snd] in *. auto.
Qed.

(** X6: When every trial of a run of more than one trial takes the same
    time, the variance that the run returns is zero. *)
Theorem run_equal_timings_zero_variance
        (n_threads seq_iter iter : Z) (args : pyargs) (kwargs : pykwargs) (w : World)
        (d : Q) :
  1 < iter ->
  (forall j, (j < Z.to_nat iter)%nat ->
     clock (ticks w + 2 * j + 1) - clock (ticks w + 2 * j) == d)%Q ->
  exists r v,
    fst (wrapper n_threads seq_iter iter args kwargs w) = Ok r /\
    dict_get "variance" r = Some (VFloat v) /\ (v == 0)%Q.
Proof.
  intros Hgt Hclock. rewrite wrapper_snd.
  assert (Hi : 1 <= iter) by lia.
  destruct (timings_length_ok iter (ticks w) Hi) as [H1 H2].
  destruct (summarize_ok n_threads seq_iter iter args _ H1 H2) as (avg & var & _ & Hv & Hs).
  assert (Hall : Forall (fun x => x == d)%Q (timings (ticks w) (Z.to_nat iter)))
    by (apply (timings_Forall (fun x => x == d)%Q); exact Hclock).
  destruct (Z.eqb_spec iter 1) as [|_]; [lia|].
  destruct Hv as (v & Hv & ->).
  exists (result_dict n_threads seq_iter iter args avg (VFloat v)), v.
  split; [exact Hs|]. split; [reflexivity|].
  eapply statistics_variance_equal; eauto.
Qed.

(** X7: If the workload returns normally on the arguments of the wrapper
    call, a run started when no thread is running makes exactly
    [iter * n_threads * seq_iter] calls, [seq_iter] in each of the
    [iter * n_threads] threads it creates, whatever the interleaving of the
    threads and whatever the configuration (a bound below 1 counts as 0). *)
Theorem run_call_count
        (n_threads seq_iter iter : Z) (args : pyargs) (kwargs : pykwargs) (w : World) :
  quiescent w -> returns_on args kwargs ->
  calls (log (snd (wrapper n_threads seq_iter iter args kwargs w)))
  = (calls (log w) + Z.to_nat iter * Z.to_nat n_threads * Z.to_nat seq_iter)%nat /\
  forall tid,
    (length (pool w) <= tid < length (pool w) + Z.to_nat iter * Z.to_nat n_threads)%nat ->
    calls_by tid (log (snd (wrapper n_threads seq_iter iter args kwargs w)))
    = (calls_by tid (log w) + Z.to_nat seq_iter)%nat.
Proof.
  intros Hq Hr.
  destruct (wrapper_conducted n_threads seq_iter iter args kwargs w Hq)
    as ([_ _ _ Hc _] & Hq' & HL).
  destruct (wrapper_counted n_threads seq_iter iter args kwargs w Hq)
    as [_ _ _ _ Hnew _ _].
  specialize (Hc Hr). specialize (Hnew Hr).
  pose proof Hq' as Hp. unfold quiescent in Hq, Hp. rewrite Hq, Hp, HL in Hc.
  split; [nia|].
  intros tid Htid. rewrite HL in Hnew. specialize (Hnew tid Htid).
  rewrite (proj1 (pending_code_left _) Hp tid) in Hnew. lia.
Qed.

(** X8: If the workload raises on the arguments of the wrapper call, every
    worker stops at its first call: with [seq_iter >= 1], a run started
    when no thread is running makes exactly one call in each of the
    [iter * n_threads] threads it creates, [iter * n_threads] calls in
    all. *)
Theorem failing_worker_stops_at_first_call
        (n_threads seq_iter iter : Z) (args : pyargs) (kwargs : pykwargs) (w : World) :
  quiescent w -> raises_on args kwargs -> 1 <= seq_iter ->
  calls (log (snd (wrapper n_threads seq_iter iter args kwargs w)))
  = (calls (log w) + Z.to_nat iter * Z.to_nat n_threads)%nat /\
  forall tid,
    (length (pool w) <= tid < length (pool w) + Z.to_nat iter * Z.to_nat n_threads)%nat ->
    calls_by tid (log (snd (wrapper n_threads seq_iter iter args kwargs w)))
    = (calls_by tid (log w) + 1)%nat.
Proof.
  intros Hq Hr Hseq.
  destruct (wrapper_conducted n_threads seq_iter iter args kwargs w Hq)
    as ([_ _ _ _ Hc] & Hq' & HL).
  destruct (wrapper_counted n_threads seq_iter iter args kwargs w Hq)
    as [_ _ _ _ _ _ Hnew].
  specialize (Hc Hr). specialize (Hnew Hr).
  rewrite (quiescent_live _ Hq), (quiescent_live _ Hq'), HL in Hc.
  replace (Nat.min 1 (Z.to_nat seq_iter)) with 1%nat in Hc, Hnew by lia.
  split; [nia|].
  intros tid Htid. rewrite HL in Hnew. specialize (Hnew tid Htid).
  pose proof Hq' as Hp. unfold quiescent in Hp.
  rewrite (proj1 (pending_code_left _) Hp tid) in Hnew.
  cbn [Nat.min] in Hnew. lia.
Qed.

(** *** What a sweep does *)

(** X9: With [iter < 1] the sweep fails in its first run, with the error of
    [statistics.mean], before anything is printed or written: the world is
    left as it was. *)
Theorem sweep_fails_without_trials (iter : Z) (args : pyargs) (w : World) :
  iter < 1 ->
  test iter args w
  = (Raise (StatisticsError "mean requires at least one data point"), w).
Proof.
  intros Hi. unfold test. cbn [for_each]. unfold bind at 1.
  unfold bench, wrapper, for_range.
  replace (Z.to_nat iter) with O by lia. reflexivity.
Qed.

(** X10: With [iter >= 1] the sweep hands to the sink, for the configurations
    (1,16), (2,8), (4,4), (8,2) in this order: the result printed, the file
    name printed, and the file written with the serialization of that same
    result.  Each result is the summary of the elapsed times of its own
    run, and the sink receives nothing else. *)
Theorem sweep_hands_results_to_sink (iter : Z) (args : pyargs) (w : World) :
  1 <= iter ->
  exists w' d1 d2 d3 d4,
    test iter args w = (Ok tt, w') /\
    summarize 1 16 iter args (timings (ticks w) (Z.to_nat iter)) = Ok d1 /\
    summarize 2 8 iter args
      (timings (ticks w + 2 * Z.to_nat iter) (Z.to_nat iter)) = Ok d2 /\
    summarize 4 4 iter args
      (timings (ticks w + 4 * Z.to_nat iter) (Z.to_nat iter)) = Ok d3 /\
    summarize 8 2 iter args
      (timings (ticks w + 6 * Z.to_nat iter) (Z.to_nat iter)) = Ok d4 /\
    sink_events (log w')
    = sink_events (log w)
        ++ sink_trace args 1 16 d1 ++ sink_trace args 2 8 d2
        ++ sink_trace args 4 4 d3 ++ sink_trace args 8 2 d4.
Proof.
  intros Hi. unfold test. cbn [for_each].
  change (16 / 1) with 16. change (16 / 2) with 8.
  change (16 / 4) with 4. change (16 / 8) with 2.
  destruct (sweep_step 1 16 iter args (result_filename args 1 16) w Hi)
    as (w1 & d1 & R1 & S1 & K1 & T1 & _).
  destruct (sweep_step 2 8 iter args (result_filename args 2 8) w1 Hi)
    as (w2 & d2 & R2 & S2 & K2 & T2 & _).
  destruct (sweep_step 4 4 iter args (result_filename args 4 4) w2 Hi)
    as (w3 & d3 & R3 & S3 & K3 & T3 & _).
  destruct (sweep_step 8 2 iter args (result_filename args 8 2) w3 Hi)
    as (w4 & d4 & R4 & S4 & K4 & T4 & _).
  unfold result_filename in R1, R2, R3, R4.
  exists w4, d1, d2, d3, d4.
  split; [|split; [|split; [|split; [|split]]]].
  - unfold bind at 1. rewrite R1.
    unfold bind at 1. rewrite R2.
    unfold bind at 1. rewrite R3.
    unfold bind at 1. rewrite R4. reflexivity.
  - exact S1.
  - rewrite <- S2. f_equal. f_equal. lia.
  - rewrite <- S3. f_equal. f_equal. lia.
  - rewrite <- S4. f_equal. f_equal. lia.
  - rewrite K4, K3, K2, K1. unfold sink_trace. rewrite <- !app_assoc. reflexivity.
Qed.

Lemma string_app_inv_head (p a b : string) :
  (p ++ a)%string = (p ++ b)%string -> a = b.
Proof.
  induction p as [|c p IH]; simpl; auto.
  intros [= H]. auto.
Qed.

Lemma result_filename_inj (args : pyargs) (n s n' s' : Z) :
  result_filename args n s = result_filename args n' s' ->
  (str_int n ++ "_" ++ str_int s ++ ".txt")%string
  = (str_int n' ++ "_" ++ str_int s' ++ ".txt")%string.
Proof.
  unfold result_filename. intros H.
  apply string_app_inv_head in H. apply string_app_inv_head in H.
  apply string_app_inv_head in H. apply string_app_inv_head in H.
  apply string_app_inv_head in H. exact H.
Qed.

(** X11: The four files of a sweep have different names, whatever the name of
    the workload and its arguments: no result of a sweep overwrites
    another. *)
Theorem sweep_filenames_distinct (args : pyargs) :
  NoDup [ result_filename args 1 16; result_filename args 2 8;
          result_filename args 4 4; result_filename args 8 2 ].
Proof.
  repeat constructor; simpl; intros H;
    repeat (destruct H as [H|H]; [apply result_filename_inj in H; discriminate H|]);
    exact H.
Qed.

(** X12: If the workload returns normally on the arguments given, a sweep
    of [iter >= 1] trials started when no thread is running makes exactly
    [64 * iter] calls over its four configurations, and no thread is
    running when the sweep returns.  (The sink of the model does not fail:
    the result files are taken to be writable.) *)
Theorem sweep_total_work (iter : Z) (args : pyargs) (w : World) :
  quiescent w -> returns_on args [] -> 1 <= iter ->
  exists w',
    test iter args w = (Ok tt, w') /\
    calls (log w') = (calls (log w) + 64 * Z.to_nat iter)%nat /\
    quiescent w'.
Proof.
  intros Hq Hr Hi. unfold test. cbn [for_each].
  change (16 / 1) with 16. change (16 / 2) with 8.
  change (16 / 4) with 4. change (16 / 8) with 2.
  destruct (sweep_step 1 16 iter args (result_filename args 1 16) w Hi)
    as (w1 & d1 & R1 & _ & _ & _ & H1).
  destruct (H1 Hq) as (Hq1 & [_ _ _ Rt1 _] & L1).
  destruct (sweep_step 2 8 iter args (result_filename args 2 8) w1 Hi)
    as (w2 & d2 & R2 & _ & _ & _ & H2).
  destruct (H2 Hq1) as (Hq2 & [_ _ _ Rt2 _] & L2).
  destruct (sweep_step 4 4 iter args (result_filename args 4 4) w2 Hi)
    as (w3 & d3 & R3 & _ & _ & _ & H3).
  destruct (H3 Hq2) as (Hq3 & [_ _ _ Rt3 _] & L3).
  destruct (sweep_step 8 2 iter args (result_filename args 8 2) w3 Hi)
    as (w4 & d4 & R4 & _ & _ & _ & H4).
  destruct (H4 Hq3) as (Hq4 & [_ _ _ Rt4 _] & L4).
  unfold result_filename in R1, R2, R3, R4.
  specialize (Rt1 Hr). specialize (Rt2 Hr). specialize (Rt3 Hr). specialize (Rt4 Hr).
  pose proof Hq4 as Hq4'.
  unfold quiescent in Hq, Hq1, Hq2, Hq3, Hq4'.
  rewrite Hq, Hq1, L1 in Rt1. rewrite Hq1, Hq2, L2 in Rt2.
  rewrite Hq2, Hq3, L3 in Rt3. rewrite Hq3, Hq4', L4 in Rt4.
  change (Z.to_nat 16) with 16%nat in *. change (Z.to_nat 8) with 8%nat in *.
  change (Z.to_nat 4) with 4%nat in *. change (Z.to_nat 2) with 2%nat in *.
  change (Z.to_nat 1) with 1%nat in *.
  exists w4. split; [|split].
  - unfold bind at 1. rewrite R1.
    unfold bind at 1. rewrite R2.
    unfold bind at 1. rewrite R3.
    unfold bind at 1. rewrite R4. reflexivity.
  - lia.
  - exact Hq4.
Qed.

End Engine.

Arguments mkWorld {St} st ticks sched pool log.
Arguments st {St} w.
Arguments ticks {St} w.
Arguments sched {St} w.
Arguments pool {St} w.
Arguments log {St} w.
Arguments init_world {St} s oracle.
Arguments step {St} func tid w.
Arguments yield {St} func w.
Arguments code_left {St} tid w.
Arguments pending {St} w.
Arguments quiescent {St} w.
Arguments never_raises {St} func.
Arguments trial {St} func clock n_threads seq_iter args kwargs _.
Arguments wrapper {St} func func_name clock n_threads seq_iter iter args kwargs _.
Arguments bench {St} func func_name clock n_threads seq_iter iter _ _ _.
Arguments test {St} func func_name clock str_args json_dumps iter args _.
Arguments live {St} w.
Arguments returns_on {St} func a k.
Arguments raises_on {St} func a k.
Arguments state_after {St} func a k x.
Arguments conducted {St} func a k s w w'.

(** ** The claims on sample runs *)

(** [grezzo] run on 5 with 4 threads of 4 calls, under an oracle that
    interleaves the workers while the main thread starts and joins them. *)
Lemma C4_witness :
  returns_on grezzo [VInt 5] [] /\
  quiescent (init_world 0 [[]; []; []; []; []; []; [0; 0]; [1; 0]; [2; 2; 0]; [3; 1]; [3]]%nat) /\
  1 <= 4 /\ 1 <= 1 /\
  Z.of_nat (calls (log (snd (trial grezzo square_clock 4 4 [VInt 5] []
      (init_world 0 [[]; []; []; []; []; []; [0; 0]; [1; 0]; [2; 2; 0]; [3; 1]; [3]]%nat)))))
  = Z.of_nat (calls (log (init_world 0
      [[]; []; []; []; []; []; [0; 0]; [1; 0]; [2; 2; 0]; [3; 1]; [3]]%nat))) + 4 * 4.
Proof.
  assert (Hr : returns_on grezzo [VInt 5] []) by (intros x; reflexivity).
  assert (Hq : quiescent
    (init_world 0 [[]; []; []; []; []; []; [0; 0]; [1; 0]; [2; 2; 0]; [3; 1]; [3]]%nat))
    by reflexivity.
  assert (H4 : 1 <= 4) by lia.
  assert (H1 : 1 <= 1) by lia.
  split; [exact Hr|]. split; [exact Hq|]. split; [exact H4|]. split; [exact H1|].
  exact (proj1 (C4_calls_per_trial Z grezzo "grezzo" square_clock
                  4 4 1 [VInt 5] [] _ Hr Hq H4 H4 H1)).
Defined.

(** With a workload that raises on every call, a trial of 4 threads and 4
    repetitions makes 4 calls, not 16. *)
Lemma C4_counterexample :
  1 <= 4 /\ quiescent (init_world O []) /\
  calls (log (snd (trial failing_stub square_clock 4 4 [] [] (init_world O []))))
  = 4%nat /\
  Z.of_nat (calls (log (snd (trial failing_stub square_clock 4 4 [] [] (init_world O [])))))
  <> Z.of_nat (calls (log (init_world O []))) + 4 * 4.
Proof.
  split; [lia|]. split; [reflexivity|]. split; [reflexivity|].
  vm_compute. discriminate.
Qed.

Lemma C8_witness :
  1 <= 4 /\ 1 <= 4 /\ 1 <= 2 /\
  exists d avg var,
    fst (wrapper counting_stub "counting_stub" square_clock 4 4 2 [VInt 5] []
           (init_world O [])) = Ok d /\
    dict_keys d = ["fun"; "args"; "n_threads"; "seq_iter"; "iter"; "mean"; "variance"]%string /\
    dict_get "fun" d = Some (VStr "counting_stub") /\
    dict_get "args" d = Some (VTuple [VInt 5]) /\
    dict_get "n_threads" d = Some (VInt 4) /\
    dict_get "seq_iter" d = Some (VInt 4) /\
    dict_get "iter" d = Some (VInt 2) /\
    dict_get "mean" d = Some (VFloat avg) /\
    dict_get "variance" d = Some var.
Proof.
  assert (H4 : 1 <= 4) by lia.
  assert (H2 : 1 <= 2) by lia.
  split; [exact H4|]. split; [exact H4|]. split; [exact H2|].
  exact (C8_result_echoes_config nat counting_stub "counting_stub" square_clock
           4 4 2 [VInt 5] [] (init_world O []) H4 H4 H2).
Defined.

Lemma C7_witness :
  1 <= 2 /\ 1 <= 3 /\ 1 <= 3 /\
  (forall j, (j < Z.to_nat 3)%nat ->
             square_clock (O + 2 * j) <= square_clock (O + 2 * j + 1))%Q /\
  exists d avg,
    fst (wrapper counting_stub "counting_stub" square_clock 2 3 3 [VInt 5] []
           (init_world O [])) = Ok d /\
    dict_get "mean" d = Some (VFloat avg) /\ (0 <= avg)%Q /\
    (1 < 3 -> exists v, dict_get "variance" d = Some (VFloat v) /\ (0 <= v)%Q).
Proof.
  assert (H2 : 1 <= 2) by lia.
  assert (H3 : 1 <= 3) by lia.
  assert (Hc : (forall j, (j < Z.to_nat 3)%nat ->
                          square_clock (O + 2 * j) <= square_clock (O + 2 * j + 1))%Q).
  { intros j Hj. unfold square_clock. rewrite <- Zle_Qle. nia. }
  split; [exact H2|]. split; [exact H3|]. split; [exact H3|]. split; [exact Hc|].
  exact (C7_mean_and_variance_nonneg nat counting_stub "counting_stub" square_clock
           2 3 3 [VInt 5] [] (init_world O []) H2 H3 H3 Hc).
Defined.


Lemma C9_witness :
  quiescent (init_world O [[]; []; []; [0]; [1; 0]]%nat) /\
  exists new,
    log (snd (wrapper counting_stub "counting_stub" square_clock 2 2 1
                [VInt 5] [("n"%string, VInt 7)]
                (init_world O [[]; []; []; [0]; [1; 0]]%nat)))
    = log (init_world O [[]; []; []; [0]; [1; 0]]%nat) ++ new /\
    Forall (call_has [VInt 5] [("n"%string, VInt 7)]) new.
Proof.
  assert (Hq : quiescent (init_world O [[]; []; []; [0]; [1; 0]]%nat)) by reflexivity.
  split; [exact Hq|].
  exact (proj1 (C9_kwargs_forwarded_not_recorded nat counting_stub "counting_stub"
                  square_clock 2 2 1 [VInt 5] [("n"%string, VInt 7)] _ Hq)).
Defined.

(** A configuration with no thread at all is run like any other. *)
Lemma C2_counterexample :
  exists d,
    fst (wrapper counting_stub "counting_stub" square_clock 0 1 1 [VInt 5] []
           (init_world O [])) = Ok d /\
    dict_get "n_threads" d = Some (VInt 0).
Proof.
  eexists. split; reflexivity.
Qed.

Lemma C2_witness :
  quiescent (init_world O []) /\ (0 < 1 \/ 1 < 1 \/ 1 < 1) /\
  calls (log (snd (wrapper counting_stub "counting_stub" square_clock 0 1 1 [VInt 5] []
                     (init_world O [])))) = calls (log (init_world O [])) /\
  st (snd (wrapper counting_stub "counting_stub" square_clock 0 1 1 [VInt 5] []
             (init_world O []))) = st (init_world O []).
Proof.
  assert (Hq : quiescent (init_world O [])) by reflexivity.
  assert (Hbad : 0 < 1 \/ 1 < 1 \/ 1 < 1) by (left; lia).
  pose proof (C2_invalid_config_is_not_checked nat counting_stub "counting_stub"
                square_clock 0 1 1 [VInt 5] [] (init_world O []) Hq Hbad) as H.
  split; [exact Hq|]. split; [exact Hbad|].
  split; [exact (proj1 H) | exact (proj1 (proj2 H))].
Defined.

(** Every call of the workload raises, in each of two workers; the run
    returns its result all the same, and each worker made one call of its
    three. *)
Lemma C3_counterexample :
  (exists tid e,
     In (EvRaise tid e)
        (log (snd (wrapper failing_stub "failing_stub" square_clock 2 3 1 [] []
                     (init_world O []))))) /\
  (exists d,
     fst (wrapper failing_stub "failing_stub" square_clock 2 3 1 [] []
            (init_world O [])) = Ok d) /\
  calls (log (snd (wrapper failing_stub "failing_stub" square_clock 2 3 1 [] []
                     (init_world O [])))) = 2%nat.
Proof.
  split; [|split].
  - exists O, (WorkloadError "boom"). vm_compute. tauto.
  - eexists. reflexivity.
  - reflexivity.
Qed.

Lemma C3_witness :
  1 <= 1 /\
  (exists tid e,
     In (EvRaise tid e)
        (log (snd (wrapper failing_stub "failing_stub" square_clock 2 3 1 [] []
                     (init_world O []))))) /\
  exists avg var,
    fst (wrapper failing_stub "failing_stub" square_clock 2 3 1 [] [] (init_world O []))
    = Ok (result_dict "failing_stub" 2 3 1 [] avg var).
Proof.
  assert (H1 : 1 <= 1) by lia.
  assert (Hr : exists tid e,
     In (EvRaise tid e)
        (log (snd (wrapper failing_stub "failing_stub" square_clock 2 3 1 [] []
                     (init_world O []))))).
  { exists O, (WorkloadError "boom"). vm_compute. tauto. }
  split; [exact H1|]. split; [exact Hr|].
  destruct (C3_worker_failure_is_not_surfaced nat failing_stub "failing_stub"
              square_clock 2 3 1 [] [] (init_world O []) H1 Hr)
    as (avg & var & H & _).
  exists avg, var. exact H.
Defined.

(** With one thread the trial reads the clock before it creates the
    thread: its trace is not one that creates first. *)
Lemma C6_counterexample :
  ~ exists t0 t1,
      main_events (log (snd (trial counting_stub square_clock 1 1 [] [] (init_world O []))))
      = create_first_trace 1 0 t0 t1.
Proof.
  intros (t0 & t1 & H). vm_compute in H. discriminate H.
Qed.

(** The hypothesis of C7 on the clock is needed: when the clock runs
    backwards the mean is negative (and the variance of the single trial is
    still the integer 0). *)
Example mean_negative_on_backward_clock :
  exists d avg,
    fst (wrapper counting_stub "counting_stub" backward_clock 1 1 1 [] []
           (init_world O [])) = Ok d /\
    dict_get "mean" d = Some (VFloat avg) /\ (avg < 0)%Q /\
    dict_get "variance" d = Some (VInt 0).
Proof.
  eexists. eexists. repeat split.
Qed.

(** ** Further properties on sample runs *)

Lemma run_calls_between_witness :
  quiescent (init_world O [[]; []; []; [0]; [1; 0]]%nat) /\
  (calls (log (init_world O [[]; []; []; [0]; [1; 0]]%nat))
   + Z.to_nat 1 * Z.to_nat 2 * Nat.min 1 (Z.to_nat 3)
   <= calls (log (snd (wrapper flaky_stub "flaky_stub" square_clock 2 3 1 [] []
                         (init_world O [[]; []; []; [0]; [1; 0]]%nat)))))%nat /\
  (calls (log (snd (wrapper flaky_stub "flaky_stub" square_clock 2 3 1 [] []
                      (init_world O [[]; []; []; [0]; [1; 0]]%nat))))
   <= calls (log (init_world O [[]; []; []; [0]; [1; 0]]%nat))
      + Z.to_nat 1 * Z.to_nat 2 * Z.to_nat 3)%nat.
Proof.
  assert (Hq : quiescent (init_world O [[]; []; []; [0]; [1; 0]]%nat)) by reflexivity.
  pose proof (run_calls_between nat flaky_stub "flaky_stub" square_clock
                2 3 1 [] [] _ Hq) as H.
  split; [exact Hq|]. split; [exact (proj1 H) | exact (proj1 (proj2 H))].
Defined.

Lemma steady_clock_step (T j : nat) :
  (steady_clock (T + 2 * j + 1) - steady_clock (T + 2 * j) == 1)%Q.
Proof.
  unfold steady_clock, Qminus. rewrite <- inject_Z_opp, <- inject_Z_plus.
  change 1%Q with (inject_Z 1). apply inject_Z_injective. lia.
Qed.

Lemma run_equal_timings_zero_variance_witness :
  1 < 3 /\
  exists r v,
    fst (wrapper counting_stub "counting_stub" steady_clock 2 2 3 [] []
           (init_world O [])) = Ok r /\
    dict_get "variance" r = Some (VFloat v) /\ (v == 0)%Q.
Proof.
  assert (H3 : 1 < 3) by lia.
  assert (Hc : forall j, (j < Z.to_nat 3)%nat ->
     (steady_clock (O + 2 * j + 1) - steady_clock (O + 2 * j) == 1)%Q)
    by (intros j _; apply steady_clock_step).
  split; [exact H3|].
  exact (run_equal_timings_zero_variance nat counting_stub "counting_stub" steady_clock
           2 2 3 [] [] (init_world O []) 1%Q H3 Hc).
Defined.

Lemma run_call_count_witness :
  quiescent (init_world 7%nat [[]; []; []; [0]; [1; 0]]%nat) /\
  returns_on counting_stub [VInt 5] [] /\
  calls (log (snd (wrapper counting_stub "counting_stub" square_clock 2 3 2 [VInt 5] []
                     (init_world 7%nat [[]; []; []; [0]; [1; 0]]%nat))))
  = (calls (log (init_world 7%nat [[]; []; []; [0]; [1; 0]]%nat))
     + Z.to_nat 2 * Z.to_nat 2 * Z.to_nat 3)%nat.
Proof.
  assert (Hq : quiescent (init_world 7%nat [[]; []; []; [0]; [1; 0]]%nat))
    by reflexivity.
  assert (Hr : returns_on counting_stub [VInt 5] []) by (intros x; reflexivity).
  split; [exact Hq|]. split; [exact Hr|].
  exact (proj1 (run_call_count nat counting_stub "counting_stub" square_clock
                  2 3 2 [VInt 5] [] _ Hq Hr)).
Defined.

Lemma failing_worker_stops_at_first_call_witness :
  quiescent (init_world O [[]; []; []; [0]; [1; 0]]%nat) /\
  raises_on failing_stub [] [] /\ 1 <= 3 /\
  calls (log (snd (wrapper failing_stub "failing_stub" square_clock 2 3 2 [] []
                     (init_world O [[]; []; []; [0]; [1; 0]]%nat))))
  = (calls (log (init_world O [[]; []; []; [0]; [1; 0]]%nat))
     + Z.to_nat 2 * Z.to_nat 2)%nat.
Proof.
  assert (Hq : quiescent (init_world O [[]; []; []; [0]; [1; 0]]%nat)) by reflexivity.
  assert (Hr : raises_on failing_stub [] []) by (intros x; discriminate).
  assert (H3 : 1 <= 3) by lia.
  split; [exact Hq|]. split; [exact Hr|]. split; [exact H3|].
  exact (proj1 (failing_worker_stops_at_first_call nat failing_stub "failing_stub"
                  square_clock 2 3 2 [] [] _ Hq Hr H3)).
Defined.

Lemma sweep_fails_without_trials_witness :
  0 < 1 /\
  test counting_stub "counting_stub" square_clock
       (fun _ => "(5,)"%string) (fun _ => "{}"%string) 0 [VInt 5] (init_world O [])
  = (Raise (StatisticsError "mean requires at least one data point"), init_world O []).
Proof.
  assert (H : 0 < 1) by lia.
  split; [exact H|].
  exact (sweep_fails_without_trials nat counting_stub "counting_stub" square_clock
           (fun _ => "(5,)"%string) (fun _ => "{}"%string) 0 [VInt 5]
           (init_world O []) H).
Defined.

Lemma sweep_hands_results_to_sink_witness :
  1 <= 1 /\
  exists w' d1 d2 d3 d4,
    test counting_stub "counting_stub" square_clock
         (fun _ => "(5,)"%string) (fun _ => "{}"%string) 1 [VInt 5] (init_world O [])
    = (Ok tt, w') /\
    sink_events (log w')
    = sink_events (log (init_world O []))
        ++ sink_trace "counting_stub" (fun _ => "(5,)"%string) (fun _ => "{}"%string)
             [VInt 5] 1 16 d1
        ++ sink_trace "counting_stub" (fun _ => "(5,)"%string) (fun _ => "{}"%string)
             [VInt 5] 2 8 d2
        ++ sink_trace "counting_stub" (fun _ => "(5,)"%string) (fun _ => "{}"%string)
             [VInt 5] 4 4 d3
        ++ sink_trace "counting_stub" (fun _ => "(5,)"%string) (fun _ => "{}"%string)
             [VInt 5] 8 2 d4.
Proof.
  assert (H1 : 1 <= 1) by lia.
  split; [exact H1|].
  destruct (sweep_hands_results_to_sink nat counting_stub "counting_stub" square_clock
              (fun _ => "(5,)"%string) (fun _ => "{}"%string) 1 [VInt 5]
              (init_world O []) H1)
    as (w' & d1 & d2 & d3 & d4 & R & _ & _ & _ & _ & K).
  exists w', d1, d2, d3, d4. split; [exact R | exact K].
Defined.

Lemma sweep_total_work_witness :
  quiescent (init_world O []) /\ returns_on counting_stub [VInt 5] [] /\ 1 <= 2 /\
  exists w',
    test counting_stub "counting_stub" square_clock
         (fun _ => "(5,)"%string) (fun _ => "{}"%string) 2 [VInt 5] (init_world O [])
    = (Ok tt, w') /\
    calls (log w') = (calls (log (init_world O [])) + 64 * Z.to_nat 2)%nat.
Proof.
  assert (Hq : quiescent (init_world O [])) by reflexivity.
  assert (Hr : returns_on counting_stub [VInt 5] []) by (intros x; reflexivity).
  assert (H2 : 1 <= 2) by lia.
  split; [exact Hq|]. split; [exact Hr|]. split; [exact H2|].
  destruct (sweep_total_work nat counting_stub "counting_stub" square_clock
              (fun _ => "(5,)"%string) (fun _ => "{}"%string) 2 [VInt 5]
              (init_world O []) Hq Hr H2)
    as (w' & R & C & _).
  exists w'. split; [exact R | exact C].
Defined.

(** ** The result of a run and the workload *)

(** X4: The value that a run returns is fixed by the name of the workload, the
    configuration, the positional arguments and the clock readings: two
    runs that differ in the workload, its state, the keyword arguments and
    the interleaving of the threads return the same result or the same
    error, as long as the clock has been read as often before them. *)
Theorem run_result_ignores_workload
        (St1 St2 : Type)
        (func1 : pyargs -> pykwargs -> St1 -> option exn * St1)
        (func2 : pyargs -> pykwargs -> St2 -> option exn * St2)
        (func_name : string) (clock : nat -> Q)
        (n_threads seq_iter iter : Z) (args : pyargs) (kwargs1 kwargs2 : pykwargs)
        (w1 : World St1) (w2 : World St2) :
  ticks w1 = ticks w2 ->
  fst (wrapper func1 func_name clock n_threads seq_iter iter args kwargs1 w1)
  = fst (wrapper func2 func_name clock n_threads seq_iter iter args kwargs2 w2).
Proof.
  intros H. rewrite !wrapper_snd. now rewrite H.
Qed.

Lemma run_result_ignores_workload_witness :
  ticks (init_world O [[]; []; [0]]%nat) = ticks (init_world 0 []) /\
  fst (wrapper counting_stub "f" square_clock 2 3 2 [VInt 5] [("n"%string, VInt 1)]
         (init_world O [[]; []; [0]]%nat))
  = fst (wrapper grezzo "f" square_clock 2 3 2 [VInt 5] [] (init_world 0 [])).
Proof.
  assert (H : ticks (init_world O [[]; []; [0]]%nat) = ticks (init_world 0 []))
    by reflexivity.
  split; [exact H|].
  exact (run_result_ignores_workload nat Z counting_stub grezzo "f" square_clock
           2 3 2 [VInt 5] [("n"%string, VInt 1)] [] _ _ H).
Defined.

(** ** Runs of [grezzo] *)

Lemma grezzo_returns (n : Z) : 0 <= n -> returns_on grezzo [VInt n] [].
Proof.
  intros Hn x. unfold grezzo. simpl.
  destruct (Z.ltb_spec n 0); [lia | reflexivity].
Qed.

Lemma grezzo_raises (n : Z) : n < 0 -> raises_on grezzo [VInt n] [].
Proof.
  intros Hn x. unfold grezzo. simpl.
  destruct (Z.ltb_spec n 0); [discriminate | lia].
Qed.

Lemma grezzo_iterations (n : Z) (m : nat) (s : Z) :
  0 <= n ->
  Nat.iter m (state_after grezzo [VInt n] []) s = s + Z.of_nat m * 2 ^ n.
Proof.
  intros Hn. induction m as [|m IH].
  - simpl. lia.
  - rewrite Nat.iter_succ, IH. unfold state_after, grezzo, grezzo_param.
    destruct (Z.ltb_spec n 0); [lia|]. cbn [snd]. rewrite Nat2Z.inj_succ. nia.
Qed.

Lemma grezzo_no_iteration (n : Z) (m : nat) (s : Z) :
  n < 0 -> Nat.iter m (state_after grezzo [VInt n] []) s = s.
Proof.
  intros Hn. induction m as [|m IH]; [reflexivity|].
  rewrite Nat.iter_succ, IH. unfold state_after, grezzo, grezzo_param.
  destruct (Z.ltb_spec n 0); [reflexivity | lia].
Qed.

(** X13: Benchmarking [grezzo] on a non-negative integer [n]: a run started when
    no thread is running calls it [iter * n_threads * seq_iter] times, and
    the body of its loop is run [2 ^ n] times in each call. *)
Theorem grezzo_run
        (func_name : string) (clock : nat -> Q)
        (n_threads seq_iter iter n : Z) (w : World Z) :
  0 <= n -> quiescent w ->
  calls (log (snd (wrapper grezzo func_name clock n_threads seq_iter iter [VInt n] [] w)))
  = (calls (log w) + Z.to_nat iter * Z.to_nat n_threads * Z.to_nat seq_iter)%nat /\
  st (snd (wrapper grezzo func_name clock n_threads seq_iter iter [VInt n] [] w))
  = st w + Z.of_nat (Z.to_nat iter * Z.to_nat n_threads * Z.to_nat seq_iter) * 2 ^ n.
Proof.
  intros Hn Hq.
  destruct (wrapper_conducted Z grezzo func_name clock n_threads seq_iter iter
              [VInt n] [] w Hq) as ([_ _ Hs Hc _] & Hq' & HL).
  specialize (Hc (grezzo_returns n Hn)).
  unfold quiescent in Hq, Hq'. rewrite Hq, Hq', HL in Hc.
  assert (Hcalls :
    calls (log (snd (wrapper grezzo func_name clock n_threads seq_iter iter [VInt n] [] w)))
    = (calls (log w) + Z.to_nat iter * Z.to_nat n_threads * Z.to_nat seq_iter)%nat) by nia.
  split; [exact Hcalls|].
  rewrite Hs, Hcalls, grezzo_iterations by exact Hn. f_equal. f_equal. f_equal. lia.
Qed.

Lemma grezzo_run_witness :
  0 <= 5 /\ quiescent (init_world 0 [[]; []; []; [0]; [1; 0]]%nat) /\
  st (snd (wrapper grezzo "grezzo" square_clock 2 8 1 [VInt 5] []
             (init_world 0 [[]; []; []; [0]; [1; 0]]%nat)))
  = st (init_world 0 [[]; []; []; [0]; [1; 0]]%nat)
    + Z.of_nat (Z.to_nat 1 * Z.to_nat 2 * Z.to_nat 8) * 2 ^ 5.
Proof.
  assert (H5 : 0 <= 5) by lia.
  assert (Hq : quiescent (init_world 0 [[]; []; []; [0]; [1; 0]]%nat)) by reflexivity.
  split; [exact H5|]. split; [exact Hq|].
  exact (proj2 (grezzo_run "grezzo" square_clock 2 8 1 5 _ H5 Hq)).
Defined.

(** X14: Benchmarking [grezzo] on a negative integer: every call raises before
    the loop is entered ([2 ** n] is then a float, which [range] refuses),
    so with [seq_iter >= 1] and [iter >= 1] the run makes as many calls as
    it creates threads, the loop body is never run, and the run returns its
    result all the same. *)
Theorem grezzo_run_negative
        (func_name : string) (clock : nat -> Q)
        (n_threads seq_iter iter n : Z) (w : World Z) :
  n < 0 -> quiescent w -> 1 <= seq_iter -> 1 <= iter ->
  calls (log (snd (wrapper grezzo func_name clock n_threads seq_iter iter [VInt n] [] w)))
  = (calls (log w) + Z.to_nat iter * Z.to_nat n_threads)%nat /\
  st (snd (wrapper grezzo func_name clock n_threads seq_iter iter [VInt n] [] w)) = st w /\
  exists avg var,
    fst (wrapper grezzo func_name clock n_threads seq_iter iter [VInt n] [] w)
    = Ok (result_dict func_name n_threads seq_iter iter [VInt n] avg var).
Proof.
  intros Hn Hq Hseq Hi.
  destruct (wrapper_conducted Z grezzo func_name clock n_threads seq_iter iter
              [VInt n] [] w Hq) as ([_ _ Hs _ Hc] & Hq' & HL).
  specialize (Hc (grezzo_raises n Hn)).
  rewrite (quiescent_live _ _ Hq), (quiescent_live _ _ Hq'), HL in Hc.
  replace (Nat.min 1 (Z.to_nat seq_iter)) with 1%nat in Hc by lia.
  split; [nia|]. split.
  - rewrite Hs. now apply grezzo_no_iteration.
  - rewrite wrapper_snd.
    destruct (timings_length_ok clock iter (ticks w) Hi) as [H1 H2].
    destruct (summarize_ok func_name n_threads seq_iter iter [VInt n] _ H1 H2)
      as (avg & var & _ & _ & Hsum).
    exists avg, var. exact Hsum.
Qed.

Lemma grezzo_run_negative_witness :
  -1 < 0 /\ quiescent (init_world 0 []) /\ 1 <= 4 /\ 1 <= 1 /\
  calls (log (snd (wrapper grezzo "grezzo" square_clock 4 4 1 [VInt (-1)] []
                     (init_world 0 []))))
  = (calls (log (init_world 0 [])) + Z.to_nat 1 * Z.to_nat 4)%nat.
Proof.
  assert (Hn : -1 < 0) by lia.
  assert (Hq : quiescent (init_world 0 [])) by reflexivity.
  assert (H4 : 1 <= 4) by lia.
  assert (H1 : 1 <= 1) by lia.
  split; [exact Hn|]. split; [exact Hq|]. split; [exact H4|]. split; [exact H1|].
  exact (proj1 (grezzo_run_negative "grezzo" square_clock 4 4 1 (-1) _ Hn Hq H4 H1)).
Defined.
